(** * The signaling relay of [main.ts]: rooms, connection lifecycle, routing

    A shallow embedding of [src/main.ts].  One host (server role) socket and
    any number of guest (client role) sockets meet in a [Room]; the relay
    parses every inbound message, routes it, and cleans up on close.

    What the program takes from the platform is kept abstract:
    - [JSON.parse], [JSON.stringify] and [crypto.randomUUID] are the fields
      of the class [Platform];
    - a [WebSocket] is an identity; [ws.send] and [ws.close] are recorded in
      the list of effects a handler produces, next to the console lines.
      The sockets held by a room are taken to be open; the socket of a
      request that is still being handled is not ([WebSocket_send]). *)

From Stdlib Require Import String Ascii List.
From Stdlib.Floats Require Import SpecFloat.
From stdpp Require Import base option list gmap strings pretty.
Import ListNotations.
Local Open Scope string_scope.
Set Warnings "-register-all".

(** ** JavaScript values, as [JSON.parse] produces them *)

(** A number is an IEEE 754 binary64; the relay only ever tests one for
    truthiness.  An object lists its own properties in property order; an
    absent property or [undefined] is [None] at the places that read one. *)
Inductive JSValue : Type :=
| JSNull
| JSBool (b : bool)
| JSNumber (x : spec_float)
| JSString (s : string)
| JSArray (elems : list JSValue)
| JSObject (props : list (string * JSValue)).

(** [ToBoolean], the test of [if (message.clientID)]. *)
Definition ToBoolean (v : option JSValue) : bool :=
  match v with
  | None => false
  | Some JSNull => false
  | Some (JSBool b) => b
  | Some (JSNumber (S754_zero _)) => false
  | Some (JSNumber S754_nan) => false
  | Some (JSNumber _) => true
  | Some (JSString EmptyString) => false
  | Some (JSString _) => true
  | Some (JSArray _) => true
  | Some (JSObject _) => true
  end.

(** First binding of a key in a list of bindings. *)
Fixpoint assoc {V : Type} (k : string) (l : list (string * V)) : option V :=
  match l with
  | [] => None
  | (k', v) :: rest => if decide (k' = k) then Some v else assoc k rest
  end.

(** [o[k] = v] for a key [k] that is not an array index: an existing
    property keeps its place and takes the new value, a new one goes last. *)
Fixpoint define_prop {V : Type} (k : string) (v : V) (l : list (string * V))
  : list (string * V) :=
  match l with
  | [] => [(k, v)]
  | (k', v') :: rest =>
      if decide (k' = k) then (k, v) :: rest
      else (k', v') :: define_prop k v rest
  end.

(** The own enumerable properties that a spread [{...v}] copies: those of
    an object; the elements of an array and the characters of a string
    under their decimal index; none for [null], a boolean or a number. *)
Definition own_props (v : JSValue) : list (string * JSValue) :=
  match v with
  | JSObject props => props
  | JSArray elems => imap (λ i x, (pretty i, x)) elems
  | JSString s =>
      imap (λ i c, (pretty i, JSString (String c EmptyString)))
           (list_ascii_of_string s)
  | JSNull | JSBool _ | JSNumber _ => []
  end.

(** Whether the conversion of a value to a string, as in a template
    literal, throws its [TypeError].  On an object the conversion calls
    [toString], which a parsed object inherits unless it has an own property
    of that name; an own one is no function, and [valueOf] then gives back
    the object, which is no primitive.  On an array it joins the conversions
    of the elements, where [null] counts as the empty string. *)
Fixpoint ToString_throws (v : JSValue) : bool :=
  match v with
  | JSObject props =>
      match assoc "toString" props with Some _ => true | None => false end
  | JSArray elems =>
      (fix any (l : list JSValue) : bool :=
         match l with
         | [] => false
         | x :: rest => ToString_throws x || any rest
         end) elems
  | JSNull | JSBool _ | JSNumber _ | JSString _ => false
  end.

(** ** Exceptions and effects *)

Inductive JSError : Type := SyntaxError | TypeError | InvalidStateError.

Inductive Outcome (A : Type) : Type :=
| Ret (a : A)
| Throw (e : JSError).
Arguments Ret {A} a.
Arguments Throw {A} e.

(** A socket is known by its identity only. *)
Definition WebSocket : Type := nat.

(** The console lines of a room, without the [[Room xxxxxx]] prefix. *)
Inductive RoomLine : Type :=
| Initialized
| RejectedServerConn
| RegisteredServerConn
| ErrorFromServer (e : JSError)
| ServerConnClosed
| RegisteredClientConn (clientId : string)
| ErrorFromClient (clientId : string) (e : JSError)
| ClientConnClosed (clientId : string)
| UnknownClient (clientId : JSValue)
| NoServerConnection (clientId : string).

Inductive LogLine : Type :=
| CreatedRoom (roomId : string)
| AddingConn (role : string) (tag : string)
| InRoom (tag : string) (l : RoomLine).

Inductive Effect : Type :=
| console_log (l : LogLine)
| console_error (l : LogLine)
| ws_send (ws : WebSocket) (data : string)
| ws_close (ws : WebSocket).

(** A piece of code running on a state [S]: its outcome, the state it
    leaves and the effects it performed, in order. *)
Definition Run (S A : Type) : Type := S → Outcome A * S * list Effect.

Global Instance run_ret {S} : MRet (Run S) := λ A a s, (Ret a, s, []).
Global Instance run_bind {S} : MBind (Run S) := λ A B f m s,
  match m s with
  | (Ret a, s', out) =>
      match f a s' with (r, s'', out') => (r, s'', (out ++ out')%list) end
  | (Throw e, s', out) => (Throw e, s', out)
  end.
Global Instance run_throw {S} : MThrow JSError (Run S) :=
  λ A e s, (Throw e, s, []).

(** [try { m } catch (e) { h e }] *)
Definition try_catch {S A} (m : Run S A) (h : JSError → Run S A) : Run S A :=
  λ s, match m s with
       | (Ret a, s', out) => (Ret a, s', out)
       | (Throw e, s', out) =>
           match h e s' with (r, s'', out') => (r, s'', (out ++ out')%list) end
       end.
Definition gets {S A} (f : S → A) : Run S A := λ s, (Ret (f s), s, []).
Definition modify {S} (f : S → S) : Run S unit := λ s, (Ret tt, f s, []).
Definition emit {S} (e : Effect) : Run S unit := λ s, (Ret tt, s, [e]).
Definition lift {S A} (o : Outcome A) : Run S A := λ s, (o, s, []).

(** The [readyState] of a socket.  The socket that [Deno.upgradeWebSocket]
    makes for a request is [CONNECTING] until the response of the request
    has been returned. *)
Inductive ReadyState : Type := CONNECTING | OPEN | CLOSING | CLOSED.

(** [ws.send(data)] on a socket in a given state: an [InvalidStateError]
    while it is connecting, the data sent when it is open, nothing once it
    is closing or closed. *)
Definition WebSocket_send {S} (readyState : ReadyState) (ws : WebSocket)
    (data : string) : Run S unit :=
  match readyState with
  | CONNECTING => mthrow InvalidStateError
  | OPEN => emit (ws_send ws data)
  | CLOSING | CLOSED => mret tt
  end.

(** [list.forEach(f)] *)
Fixpoint for_each {S A} (f : A → Run S unit) (l : list A) : Run S unit :=
  match l with
  | [] => mret tt
  | x :: rest => f x;; for_each f rest
  end.

Definition state_of {S A} (r : Outcome A * S * list Effect) : S := r.1.2.
Definition effects_of {S A} (r : Outcome A * S * list Effect) : list Effect := r.2.
Definition outcome_of {S A} (r : Outcome A * S * list Effect) : Outcome A := r.1.1.

(** ** The platform *)

(** [JSON_parse] is [None] where [JSON.parse] throws its [SyntaxError].
    [crypto_randomUUID n] is what the [n]-th call of [crypto.randomUUID()]
    in the life of the process returns. *)
Class Platform : Type := {
  JSON_parse : string → option JSValue;
  JSON_stringify : JSValue → string;
  crypto_randomUUID : nat → string;
}.

(** ** [class Room] *)

(** [clientConns] is a JavaScript [Map]: its keys are unique and it is
    visited in insertion order. *)
Module JSMap.
Definition get {V} (m : list (string * V)) (k : string) : option V :=
  assoc k m.
Definition set {V} (k : string) (v : V) (m : list (string * V))
  : list (string * V) := define_prop k v m.
Definition delete {V} (k : string) (m : list (string * V))
  : list (string * V) := filter (λ kv, kv.1 ≠ k) m.
Definition clear {V} (m : list (string * V)) : list (string * V) := [].
Definition values {V} (m : list (string * V)) : list V := m.*2.
Definition keys {V} (m : list (string * V)) : list string := m.*1.
(** [m.get(k)] for a key that may be any value: under SameValueZero a
    key that is not a string equals no string key. *)
Definition get_value {V} (m : list (string * V)) (k : JSValue) : option V :=
  match k with
  | JSString s => get m s
  | _ => None
  end.
End JSMap.

Record Room : Type := mkRoom {
  id : string;
  serverConn : option WebSocket;
  clientConns : list (string * WebSocket);
}.

Definition set_serverConn (c : option WebSocket) (r : Room) : Room :=
  mkRoom (id r) c (clientConns r).
Definition set_clientConns (m : list (string * WebSocket)) (r : Room) : Room :=
  mkRoom (id r) (serverConn r) m.

(** The pair of closures a room puts on a socket ([ws.onmessage] and
    [ws.onclose]): those of the server peer, or those of a client peer,
    which hold its [clientId]. *)
Inductive Handlers : Type :=
| ServerHandlers
| ClientHandlers (clientId : string).

Section RoomMethods.
Context `{Platform}.

(** [`[Room ${this.id.substring(0, 6)}] ...`] *)
Definition room_log (l : RoomLine) : Run Room unit :=
  λ r, emit (console_log (InRoom (substring 0 6 (id r)) l)) r.
Definition room_error (l : RoomLine) : Run Room unit :=
  λ r, emit (console_error (InRoom (substring 0 6 (id r)) l)) r.

(** [new Room(id)] *)
Definition new_Room (roomId : string) : Room * list Effect :=
  let r := mkRoom roomId None [] in
  (r, effects_of (room_log Initialized r)).

(** [message.clientID]: a [TypeError] on [null]; [undefined] on a value
    without such an own property. *)
Definition read_clientID (message : JSValue) : Outcome (option JSValue) :=
  match message with
  | JSNull => Throw TypeError
  | JSObject props => Ret (assoc "clientID" props)
  | JSBool _ | JSNumber _ | JSString _ | JSArray _ => Ret None
  end.

(** [{ ...message, clientID: clientId }] *)
Definition with_clientID (message : JSValue) (clientId : string) : JSValue :=
  JSObject (define_prop "clientID" (JSString clientId) (own_props message)).

Definition parse (data : string) : Outcome JSValue :=
  match JSON_parse data with
  | Some v => Ret v
  | None => Throw SyntaxError
  end.

Definition sendMessageToClient (clientId : JSValue) (message : JSValue)
  : Run Room unit :=
  clientWs ← gets (λ r, JSMap.get_value (clientConns r) clientId);
  match clientWs with
  | None =>
      (* the line is a template literal that holds [${clientId}] *)
      (if ToString_throws clientId then mthrow TypeError else mret tt);;
      room_log (UnknownClient clientId)
  | Some clientWs => emit (ws_send clientWs (JSON_stringify message))
  end.

Definition sendMessageToServer (clientId : string) (message : JSValue)
  : Run Room unit :=
  conn ← gets serverConn;
  match conn with
  | None => room_log (NoServerConnection clientId)
  | Some conn =>
      let serverMessage := with_clientID message clientId in
      emit (ws_send conn (JSON_stringify serverMessage))
  end.

(** [ws.onmessage] of the server peer *)
Definition server_onmessage (data : string) : Run Room unit :=
  try_catch
    (message ← lift (parse data);
     target ← lift (read_clientID message);
     if ToBoolean target
     then match target with
          | Some clientID => sendMessageToClient clientID message
          | None => mret tt
          end
     else mret tt)
    (λ e, room_error (ErrorFromServer e)).

(** [ws.onclose] of the server peer *)
Definition server_onclose : Run Room unit :=
  room_log ServerConnClosed;;
  modify (set_serverConn None);;
  conns ← gets (λ r, JSMap.values (clientConns r));
  for_each (λ clientWs, emit (ws_close clientWs)) conns;;
  modify (λ r, set_clientConns (JSMap.clear (clientConns r)) r).

(** [handleServerConn(ws)]: the handlers it leaves on [ws], if any.  Its one
    caller, [handleWebSocket], passes the socket it has just had made for
    the request and has not yet returned the response of: [ws] is
    [CONNECTING]. *)
Definition handleServerConn (ws : WebSocket) : Run Room (option Handlers) :=
  conn ← gets serverConn;
  match conn with
  | Some _ =>
      room_log RejectedServerConn;;
      WebSocket_send CONNECTING ws (JSON_stringify (JSObject
              [("type", JSString "error");
               ("data", JSString "server conn already exists")]));;
      emit (ws_close ws);;
      mret None
  | None =>
      modify (set_serverConn (Some ws));;
      room_log RegisteredServerConn;;
      mret (Some ServerHandlers)
  end.

(** [ws.onmessage] of the client peer registered as [clientId] *)
Definition client_onmessage (clientId : string) (data : string)
  : Run Room unit :=
  try_catch
    (message ← lift (parse data);
     sendMessageToServer clientId message)
    (λ e, room_error (ErrorFromClient clientId e)).

(** [ws.onclose] of the client peer registered as [clientId] *)
Definition client_onclose (clientId : string) : Run Room unit :=
  room_log (ClientConnClosed clientId);;
  modify (λ r, set_clientConns (JSMap.delete clientId (clientConns r)) r).

(** [handleClientConn(ws)], given the [clientId] that its call of
    [crypto.randomUUID()] returned. *)
Definition handleClientConn (clientId : string) (ws : WebSocket)
  : Run Room (option Handlers) :=
  modify (λ r, set_clientConns (JSMap.set clientId ws (clientConns r)) r);;
  room_log (RegisteredClientConn clientId);;
  mret (Some (ClientHandlers clientId)).

(** An event on a socket that carries the handlers [h]. *)
Definition on_message (h : Handlers) (data : string) : Run Room unit :=
  match h with
  | ServerHandlers => server_onmessage data
  | ClientHandlers clientId => client_onmessage clientId data
  end.
Definition on_close (h : Handlers) : Run Room unit :=
  match h with
  | ServerHandlers => server_onclose
  | ClientHandlers clientId => client_onclose clientId
  end.
End RoomMethods.

(** ** The process: the registry of rooms and the sockets in use *)

Record Response : Type := mkResponse { status : nat; body : string }.

(** [heap] holds every [Room] object constructed so far; a reference to one
    is its index.  [rooms] is the global [Map] from room id to [Room].
    [wired] tells, for every socket that carries handlers, the [Room] they
    close over ([this]) and which handlers they are.  [uuid_calls] counts
    the calls of [crypto.randomUUID()]. *)
Record Server : Type := mkServer {
  heap : list Room;
  rooms : gmap string nat;
  wired : gmap WebSocket (nat * Handlers);
  uuid_calls : nat;
}.

Definition initial : Server := mkServer [] ∅ ∅ 0.

Definition set_heap (h : list Room) (s : Server) : Server :=
  mkServer h (rooms s) (wired s) (uuid_calls s).
Definition set_rooms (m : gmap string nat) (s : Server) : Server :=
  mkServer (heap s) m (wired s) (uuid_calls s).
Definition set_wired (w : gmap WebSocket (nat * Handlers)) (s : Server) : Server :=
  mkServer (heap s) (rooms s) w (uuid_calls s).

(** What reaches the process: an HTTP request, with its method, the path
    and the [room-id] and [role] parameters of its URL, that asks for the
    upgrade to a socket, and the socket that [Deno.upgradeWebSocket] makes
    for it ([Request]), or that does not ask for it, so that
    [Deno.upgradeWebSocket] throws ([PlainRequest]); a message on a socket,
    with [event.data] as the text that [JSON.parse] reads; the close of a
    socket. *)
Inductive Event : Type :=
| Request (method pathname : string) (roomId role : option string)
          (socket : WebSocket)
| PlainRequest (method pathname : string) (roomId role : option string)
| Message (ws : WebSocket) (data : string)
| Close (ws : WebSocket).

Section Process.
Context `{Platform}.

(** [crypto.randomUUID()] *)
Definition randomUUID : Run Server string :=
  λ s, (Ret (crypto_randomUUID (uuid_calls s)),
        mkServer (heap s) (rooms s) (wired s) (S (uuid_calls s)), []).

(** A method of the [Room] object [this].  Every reference the process
    holds is to a constructed room ([references_ok] below), so the last case
    does not arise. *)
Definition on_room {A} (this : nat) (m : Run Room A) : Run Server A :=
  λ s, match heap s !! this with
       | Some r =>
           match m r with
           | (o, r', out) => (o, set_heap (<[this := r']> (heap s)) s, out)
           end
       | None => (Throw TypeError, s, [])
       end.

(** [new Room(roomId)]: a reference to the new object. *)
Definition construct_Room (roomId : string) : Run Server nat :=
  λ s, match new_Room roomId with
       | (r, out) => (Ret (length (heap s)), set_heap (heap s ++ [r]) s, out)
       end.

(** [ws.onmessage = ...; ws.onclose = ...] *)
Definition wire (ws : WebSocket) (this : nat) (h : option Handlers)
  : Run Server unit :=
  match h with
  | Some h => modify (λ s, set_wired (<[ws := (this, h)]> (wired s)) s)
  | None => mret tt
  end.

Definition handleCreateRoom : Run Server Response :=
  roomId ← randomUUID;
  room ← construct_Room roomId;
  modify (λ s, set_rooms (<[roomId := room]> (rooms s)) s);;
  emit (console_log (CreatedRoom roomId));;
  mret (mkResponse 200 roomId).

(** [!param] for a URL parameter: absent or empty. *)
Definition missing (param : option string) : bool :=
  match param with
  | None | Some EmptyString => true
  | Some _ => false
  end.

(** [Deno.upgradeWebSocket(req)]: the socket made for the request, or a
    [TypeError] when the request does not ask for the upgrade. *)
Definition Deno_upgradeWebSocket (upgrade : option WebSocket)
  : Run Server WebSocket :=
  match upgrade with
  | Some socket => mret socket
  | None => mthrow TypeError
  end.

(** [handleWebSocket(req)], with the parameters of the URL of [req] and the
    socket that an upgrade of [req] gives, if [req] asks for one. *)
Definition handleWebSocket (roomId role : option string)
    (upgrade : option WebSocket) : Run Server Response :=
  match roomId, role with
  | Some roomId, Some role =>
      if missing (Some roomId) || missing (Some role)
      then mret (mkResponse 400 "Missing 'room-id' or 'role' query parameters")
      else if bool_decide (role ≠ "client") && bool_decide (role ≠ "server")
      then mret (mkResponse 400 "Role must be 'client' or 'server'")
      else
        room ← gets (λ s, rooms s !! roomId);
        match room with
        | None =>
            mret (mkResponse 404 ("Room with ID '" ++ roomId ++ "' not found"))
        | Some room =>
            socket ← Deno_upgradeWebSocket upgrade;
            tag ← on_room room (gets (λ r, substring 0 6 (id r)));
            emit (console_log (AddingConn role tag));;
            (if bool_decide (role = "client")
             then clientId ← randomUUID;
                  h ← on_room room (handleClientConn clientId socket);
                  wire socket room h
             else h ← on_room room (handleServerConn socket);
                  wire socket room h);;
            mret (mkResponse 101 EmptyString)
        end
  | _, _ => mret (mkResponse 400 "Missing 'room-id' or 'role' query parameters")
  end.

(** The handler given to [Deno.serve]. *)
Definition serve (method pathname : string) (roomId role : option string)
    (upgrade : option WebSocket) : Run Server Response :=
  if bool_decide (method = "POST") && bool_decide (pathname = "/rooms")
  then handleCreateRoom
  else if bool_decide (method = "GET") && bool_decide (pathname = "/ws")
  then handleWebSocket roomId role upgrade
  else mret (mkResponse 404 "Not Found").

(** One event: a request is answered, unless its handler throws (what
    [Deno.serve] then does with the exception is the platform's); a message
    or a close runs the handler wired on the socket, if there is one. *)
Definition step (ev : Event) : Run Server (option Response) :=
  match ev with
  | Request method pathname roomId role socket =>
      response ← serve method pathname roomId role (Some socket);
      mret (Some response)
  | PlainRequest method pathname roomId role =>
      response ← serve method pathname roomId role None;
      mret (Some response)
  | Message ws data =>
      handlers ← gets (λ s, wired s !! ws);
      match handlers with
      | Some (this, h) => on_room this (on_message h data);; mret None
      | None => mret None
      end
  | Close ws =>
      handlers ← gets (λ s, wired s !! ws);
      match handlers with
      | Some (this, h) => on_room this (on_close h);; mret None
      | None => mret None
      end
  end.

(** A run of events: the final state and all the effects, in order. *)
Fixpoint run (evs : list Event) (s : Server) : Server * list Effect :=
  match evs with
  | [] => (s, [])
  | ev :: rest =>
      match step ev s with
      | (_, s', out) =>
          match run rest s' with (s'', out') => (s'', (out ++ out')%list) end
      end
  end.

(** The answers to the requests of a run, in order. *)
Fixpoint responses (evs : list Event) (s : Server) : list Response :=
  match evs with
  | [] => []
  | ev :: rest =>
      match step ev s with
      | (Ret (Some response), s', _) => response :: responses rest s'
      | (_, s', _) => responses rest s'
      end
  end.
End Process.

(** ** What is observed of a run *)

(** What a socket is sent, and which sockets are closed, in a list of
    effects. *)
Definition received (ws : WebSocket) (out : list Effect) : list string :=
  omap (λ e, match e with
             | ws_send ws' data => if decide (ws' = ws) then Some data else None
             | _ => None
             end) out.

Definition closed (out : list Effect) : list WebSocket :=
  omap (λ e, match e with ws_close ws => Some ws | _ => None end) out.

Definition is_console (e : Effect) : bool :=
  match e with
  | console_log _ | console_error _ => true
  | ws_send _ _ | ws_close _ => false
  end.

(** [delete v.clientID]: what an envelope holds besides the reserved field.
    It is used to say that an envelope is a payload with the field added. *)
Definition without_clientID (v : JSValue) : JSValue :=
  match v with
  | JSObject props => JSObject (filter (λ kv, kv.1 ≠ "clientID") props)
  | JSNull | JSBool _ | JSNumber _ | JSString _ | JSArray _ => v
  end.

(** The tag of a room in its console lines. *)
Definition tag (r : Room) : string := substring 0 6 (id r).

(** The console line for a host message whose target is no key of
    [clientConns]: the line of the unknown client, or, when the target
    cannot be put into that line, the error that the [catch] writes. *)
Definition unknown_client_line (r : Room) (target : JSValue) : Effect :=
  if ToString_throws target
  then console_error (InRoom (tag r) (ErrorFromServer TypeError))
  else console_log (InRoom (tag r) (UnknownClient target)).

(** The requests that create a room, the events on a socket, and the
    requests that are upgraded to a given socket. *)
Definition is_create (ev : Event) : bool :=
  match ev with
  | Request method pathname _ _ _ | PlainRequest method pathname _ _ =>
      bool_decide (method = "POST") && bool_decide (pathname = "/rooms")
  | Message _ _ | Close _ => false
  end.

Definition on_socket (ws : WebSocket) (ev : Event) : bool :=
  match ev with
  | Message ws' _ | Close ws' => bool_decide (ws' = ws)
  | Request _ _ _ _ _ | PlainRequest _ _ _ _ => false
  end.

Definition upgrades (ws : WebSocket) (ev : Event) : bool :=
  match ev with
  | Request _ _ _ _ socket => bool_decide (socket = ws)
  | PlainRequest _ _ _ _ | Message _ _ | Close _ => false
  end.

(** How an event reaches [serve], if it is a request. *)
Definition as_request (ev : Event)
  : option (string * string * option string * option string * option WebSocket) :=
  match ev with
  | Request method pathname roomId role socket =>
      Some (method, pathname, roomId, role, Some socket)
  | PlainRequest method pathname roomId role =>
      Some (method, pathname, roomId, role, None)
  | Message _ _ | Close _ => None
  end.

Section Observations.
Context `{Platform}.
Implicit Types (s : Server) (evs : list Event).

(** The room identifiers that the requests of a run were answered with. *)
Fixpoint created evs s : list string :=
  match evs with
  | [] => []
  | ev :: rest =>
      match step ev s with
      | (Ret (Some response), s', _) =>
          if is_create ev then body response :: created rest s'
          else created rest s'
      | (_, s', _) => created rest s'
      end
  end.

(** The registry maps a key to a room that has the key as its [id], and
    every key is an identifier that was drawn. *)
Definition registry_ok s : Prop :=
  (∀ roomId this, rooms s !! roomId = Some this →
     (id <$> heap s) !! this = Some roomId)
  ∧ (∀ roomId, is_Some (rooms s !! roomId) →
       ∃ i, i < uuid_calls s ∧ roomId = crypto_randomUUID i).

(** Every reference to a room, in [rooms] or in the handlers of a socket, is
    to a room that was constructed: [on_room] finds its room. *)
Definition references_ok s : Prop :=
  (∀ roomId this, rooms s !! roomId = Some this → is_Some (heap s !! this))
  ∧ (∀ ws this h, wired s !! ws = Some (this, h) → is_Some (heap s !! this)).

(** Every key of [clientConns], in every room, is an identifier that was
    drawn. *)
Definition guests_drawn s : Prop :=
  ∀ this r G,
    heap s !! this = Some r → is_Some (JSMap.get (clientConns r) G) →
    ∃ i, i < uuid_calls s ∧ G = crypto_randomUUID i.

End Observations.

(** ** A platform to run the relay on

    Its [JSON_stringify] prints [null], booleans, strings, arrays, objects
    and whole numbers as [JSON.stringify] does (a string is taken to hold no
    control character; a number with a fraction is outside the sample).
    Its [JSON_parse] reads back the text of each value of [documents] and
    rejects every other text, among them all that is not JSON.  Its
    [crypto_randomUUID] numbers the identifiers it hands out. *)
Module Sample.
Definition quote : string := String "034"%char EmptyString.

Fixpoint escape (s : string) : string :=
  match s with
  | EmptyString => EmptyString
  | String c rest =>
      if bool_decide (c = "034"%char ∨ c = "\"%char)
      then String "\"%char (String c (escape rest))
      else String c (escape rest)
  end.

Definition print_string (s : string) : string := quote ++ escape s ++ quote.

Definition print_number (x : spec_float) : string :=
  match x with
  | S754_zero _ => "0"
  | S754_finite sign m e =>
      let n := if bool_decide (0 ≤ e)%Z then (Z.pos m * 2 ^ e)%Z
               else (Z.pos m / 2 ^ (- e))%Z in
      if sign then "-" ++ pretty n else pretty n
  | S754_infinity _ | S754_nan => "null"
  end.

Fixpoint stringify (v : JSValue) : string :=
  match v with
  | JSNull => "null"
  | JSBool b => if b then "true" else "false"
  | JSNumber x => print_number x
  | JSString s => print_string s
  | JSArray elems =>
      "[" ++ (fix items (l : list JSValue) : string :=
                match l with
                | [] => EmptyString
                | [x] => stringify x
                | x :: rest => stringify x ++ "," ++ items rest
                end) elems ++ "]"
  | JSObject props =>
      "{" ++ (fix members (l : list (string * JSValue)) : string :=
                match l with
                | [] => EmptyString
                | [(k, x)] => print_string k ++ ":" ++ stringify x
                | (k, x) :: rest =>
                    print_string k ++ ":" ++ stringify x ++ "," ++ members rest
                end) props ++ "}"
  end.

Definition uuid (n : nat) : string := "5a3e91-" ++ pretty n.

(** The numbers 0, 1, 2 and 5 as binary64. *)
Definition zero : spec_float := S754_zero false.
Definition one : spec_float := S754_finite false 4503599627370496 (-52).
Definition two : spec_float := S754_finite false 4503599627370496 (-51).
Definition five : spec_float := S754_finite false 5629499534213120 (-50).

Definition documents : list JSValue :=
  [ JSObject [("foo", JSNumber one)];
    JSObject [("foo", JSNumber two); ("clientID", JSString (uuid 1))];
    JSObject [("foo", JSNumber two); ("clientID", JSString (uuid 2))];
    JSObject [("clientID", JSString (uuid 2)); ("foo", JSNumber one)];
    JSObject [];
    JSObject [("clientID", JSString EmptyString)];
    JSObject [("clientID", JSNumber zero)];
    JSObject [("clientID", JSBool false)];
    JSObject [("clientID", JSNull)];
    JSObject [("clientID", JSNumber five)];
    JSObject [("clientID", JSObject [("toString", JSNumber one)])];
    JSNull;
    JSNumber five;
    JSString "hi";
    JSArray [JSNumber one; JSNumber two] ].

Definition parse_text (data : string) : option JSValue :=
  snd <$> list_find (λ v, stringify v = data) documents.

#[export] Instance platform : Platform := {|
  JSON_parse := parse_text;
  JSON_stringify := stringify;
  crypto_randomUUID := uuid;
|}.

(** The requests of a session. *)
Definition create_room : Event :=
  Request "POST" "/rooms" None None 0.
Definition join (roomId role : string) (socket : WebSocket) : Event :=
  Request "GET" "/ws" (Some roomId) (Some role) socket.
End Sample.

(** A room with its host on socket 10 and two guests on sockets 11 and 12;
    the same room before the host joined. *)
Definition room_of_three : Room :=
  mkRoom (Sample.uuid 0) (Some 10) [(Sample.uuid 1, 11); (Sample.uuid 2, 12)].
Definition room_without_host : Room :=
  mkRoom (Sample.uuid 0) None [(Sample.uuid 1, 11); (Sample.uuid 2, 12)].

(** The process after a room was created and a host and two guests joined
    it. *)
Definition session : list Event :=
  [Sample.create_room; Sample.join (Sample.uuid 0) "server" 10;
   Sample.join (Sample.uuid 0) "client" 11;
   Sample.join (Sample.uuid 0) "client" 12].
Definition started : Server := fst (run (H := Sample.platform) session initial).

(** The process when the room has its host and no guest yet; and with two
    rooms, the first with a host and a guest, the second with a guest. *)
Definition hosted : Server :=
  fst (run (H := Sample.platform)
         [Sample.create_room; Sample.join (Sample.uuid 0) "server" 10] initial).
Definition two_rooms : Server :=
  fst (run (H := Sample.platform)
         [Sample.create_room; Sample.create_room;
          Sample.join (Sample.uuid 0) "server" 10;
          Sample.join (Sample.uuid 0) "client" 11;
          Sample.join (Sample.uuid 1) "client" 12] initial).

(** * Properties *)

Local Open Scope nat_scope.
Local Open Scope list_scope.

Arguments ToBoolean : simpl never.
Arguments ToString_throws : simpl never.
Arguments received : simpl never.

Ltac run_unfold :=
  unfold WebSocket_send, try_catch, mbind, run_bind, mret, run_ret, mthrow,
    run_throw, gets, modify, emit, lift, room_log, room_error in *.

(** ** Lists of bindings *)

Section Bindings.
Context {V : Type}.
Implicit Types (k : string) (v : V) (l : list (string * V)).

Lemma assoc_define_prop_eq k v l : assoc k (define_prop k v l) = Some v.
Proof.
  induction l as [|[k' v'] l IH]; simpl.
  - by rewrite decide_True.
  - destruct (decide (k' = k)) as [->|Hne]; simpl.
    + by rewrite decide_True.
    + by rewrite decide_False.
Qed.

Lemma assoc_define_prop_ne k k' v l :
  k' ≠ k → assoc k' (define_prop k v l) = assoc k' l.
Proof.
  intros Hne. induction l as [|[k1 v1] l IH]; simpl.
  - by rewrite decide_False.
  - destruct (decide (k1 = k)) as [->|Hk]; simpl.
    + by rewrite !decide_False.
    + by rewrite IH.
Qed.

Lemma keys_define_prop k v l :
  (define_prop k v l).*1 =
  match assoc k l with Some _ => l.*1 | None => (l.*1 ++ [k])%list end.
Proof.
  induction l as [|[k1 v1] l IH]; csimpl; [done|].
  destruct (decide (k1 = k)) as [->|Hk]; csimpl; [done|].
  rewrite IH. by destruct (assoc k l).
Qed.

Lemma assoc_None_not_key k l : assoc k l = None ↔ k ∉ l.*1.
Proof.
  induction l as [|[k1 v1] l IH]; simpl.
  - split; [intros _; apply not_elem_of_nil | done].
  - rewrite not_elem_of_cons. destruct (decide (k1 = k)) as [->|Hk].
    + split; [done | by intros [? _]].
    + rewrite IH. split; [by intros ?; split | by intros [_ ?]].
Qed.

Lemma assoc_Some_elem k v l : assoc k l = Some v → (k, v) ∈ l.
Proof.
  induction l as [|[k1 v1] l IH]; simpl; [done|].
  destruct (decide (k1 = k)) as [->|Hk].
  - intros [= ->]. apply list_elem_of_here.
  - intros Hl. apply list_elem_of_further. by apply IH.
Qed.

Lemma get_delete_eq k l : JSMap.get (JSMap.delete k l) k = None.
Proof.
  unfold JSMap.get, JSMap.delete. apply assoc_None_not_key.
  intros Hin. apply list_elem_of_fmap in Hin as [[k1 v1] [-> Hin]].
  apply list_elem_of_filter in Hin as [Hne _]. by apply Hne.
Qed.

Lemma get_delete_ne k k' l :
  k' ≠ k → JSMap.get (JSMap.delete k l) k' = JSMap.get l k'.
Proof.
  intros Hne. unfold JSMap.get, JSMap.delete.
  induction l as [|[k1 v1] l IH]; simpl; [done|].
  rewrite filter_cons. simpl.
  destruct (decide (k1 ≠ k)) as [Hk|Hk]; simpl.
  - by rewrite IH.
  - apply dec_stable in Hk as ->. by rewrite decide_False.
Qed.

Lemma delete_delete k l :
  JSMap.delete k (JSMap.delete k l) = JSMap.delete k l.
Proof.
  unfold JSMap.delete. induction l as [|[k1 v1] l IH]; simpl; [done|].
  rewrite filter_cons. simpl.
  destruct (decide (k1 ≠ k)) as [Hk|Hk]; [|done].
  rewrite filter_cons. simpl. rewrite decide_True by done. by rewrite IH.
Qed.

Lemma delete_absent k l : JSMap.get l k = None → JSMap.delete k l = l.
Proof.
  unfold JSMap.get, JSMap.delete. induction l as [|[k1 v1] l IH]; simpl; [done|].
  destruct (decide (k1 = k)) as [->|Hk]; [done|].
  intros Hl. rewrite filter_cons. simpl. rewrite decide_True by done.
  by rewrite IH.
Qed.

Lemma filter_define_prop_absent k v l :
  assoc k l = None → filter (λ kv, kv.1 ≠ k) (define_prop k v l) = l.
Proof.
  induction l as [|[k1 v1] l IH]; simpl.
  - intros _. rewrite filter_cons. simpl. by rewrite decide_False by auto.
  - destruct (decide (k1 = k)) as [->|Hk]; [done|]. intros Hl.
    rewrite filter_cons. simpl. rewrite decide_True by done. by rewrite IH.
Qed.

Lemma get_set_eq k v l : JSMap.get (JSMap.set k v l) k = Some v.
Proof. apply assoc_define_prop_eq. Qed.

Lemma get_set_ne k k' v l :
  k' ≠ k → JSMap.get (JSMap.set k v l) k' = JSMap.get l k'.
Proof. apply assoc_define_prop_ne. Qed.
End Bindings.

(** ** The handlers of a room *)

Section RoomProperties.
Context `{Platform}.
Implicit Types (r : Room) (ws host : WebSocket) (G data : string)
  (message : JSValue).

Lemma for_each_close (l : list WebSocket) r :
  for_each (λ clientWs, emit (ws_close clientWs)) l r
  = (Ret tt, r, ws_close <$> l).
Proof.
  induction l as [|ws l IH]; simpl; [done|].
  run_unfold. by rewrite IH.
Qed.

Lemma closed_ws_close (l : list WebSocket) : closed (ws_close <$> l) = l.
Proof.
  unfold closed. induction l as [|ws l IH]; csimpl; [done|]. by rewrite IH.
Qed.

Lemma set_clientConns_id r : set_clientConns (clientConns r) r = r.
Proof. by destruct r. Qed.

Lemma server_onclose_eq r :
  server_onclose r =
  (Ret tt, mkRoom (id r) None [],
   console_log (InRoom (tag r) ServerConnClosed)
     :: (ws_close <$> JSMap.values (clientConns r))).
Proof.
  unfold server_onclose. run_unfold. simpl.
  rewrite for_each_close. simpl. by rewrite app_nil_r.
Qed.

Lemma client_onclose_eq G r :
  client_onclose G r =
  (Ret tt, set_clientConns (JSMap.delete G (clientConns r)) r,
   [console_log (InRoom (tag r) (ClientConnClosed G))]).
Proof. done. Qed.

Lemma client_onmessage_eq G data r :
  client_onmessage G data r =
  match JSON_parse data, serverConn r with
  | None, _ =>
      (Ret tt, r, [console_error (InRoom (tag r) (ErrorFromClient G SyntaxError))])
  | Some message, None =>
      (Ret tt, r, [console_log (InRoom (tag r) (NoServerConnection G))])
  | Some message, Some host =>
      (Ret tt, r, [ws_send host (JSON_stringify (with_clientID message G))])
  end.
Proof.
  unfold client_onmessage, sendMessageToServer, parse. run_unfold.
  destruct (JSON_parse data) as [message|]; simpl; [|done].
  by destruct (serverConn r).
Qed.

Lemma server_onmessage_eq data r :
  server_onmessage data r =
  match JSON_parse data with
  | None =>
      (Ret tt, r, [console_error (InRoom (tag r) (ErrorFromServer SyntaxError))])
  | Some message =>
      match read_clientID message with
      | Throw e =>
          (Ret tt, r, [console_error (InRoom (tag r) (ErrorFromServer e))])
      | Ret None => (Ret tt, r, [])
      | Ret (Some target) =>
          if ToBoolean (Some target)
          then match JSMap.get_value (clientConns r) target with
               | Some clientWs =>
                   (Ret tt, r, [ws_send clientWs (JSON_stringify message)])
               | None => (Ret tt, r, [unknown_client_line r target])
               end
          else (Ret tt, r, [])
      end
  end.
Proof.
  unfold server_onmessage, sendMessageToClient, parse, unknown_client_line.
  run_unfold.
  destruct (JSON_parse data) as [message|]; simpl; [|done].
  destruct (read_clientID message) as [[target|]|e]; simpl; try done.
  destruct (ToBoolean (Some target)); simpl; [|done].
  destruct (JSMap.get_value (clientConns r) target); [done|].
  by destruct (ToString_throws target).
Qed.

Lemma handleServerConn_eq ws r :
  handleServerConn ws r =
  match serverConn r with
  | Some _ =>
      (Throw InvalidStateError, r,
       [console_log (InRoom (tag r) RejectedServerConn)])
  | None =>
      (Ret (Some ServerHandlers), set_serverConn (Some ws) r,
       [console_log (InRoom (tag r) RegisteredServerConn)])
  end.
Proof.
  unfold handleServerConn. run_unfold. simpl. by destruct (serverConn r).
Qed.

Lemma handleClientConn_eq G ws r :
  handleClientConn G ws r =
  (Ret (Some (ClientHandlers G)),
   set_clientConns (JSMap.set G ws (clientConns r)) r,
   [console_log (InRoom (tag r) (RegisteredClientConn G))]).
Proof. done. Qed.
Lemma received_one ws ws' text :
  received ws [ws_send ws' text] = if decide (ws' = ws) then [text] else [].
Proof. unfold received. simpl. by destruct (decide (ws' = ws)). Qed.

(** C1 (as amended).  A guest registered as [G] sends a message that
    [JSON.parse] accepts while a host is attached.  The handler leaves the
    room as it is and performs one effect: it sends the host one envelope;
    no other socket is sent anything.  The envelope is an object that has
    [G] under [clientID], whatever the guest wrote there, and under every
    other key what the own enumerable properties of the payload have.
    When the payload is an object the envelope is that object with
    [clientID] set: the same keys in the same order ([clientID] is added
    last when it was absent) and the same values elsewhere; without its
    [clientID] it is the payload again, if the payload had none. *)
Theorem guest_message_reaches_host_only r G data message host :
  JSON_parse data = Some message →
  serverConn r = Some host →
  let envelope := with_clientID message G in
  client_onmessage G data r
    = (Ret tt, r, [ws_send host (JSON_stringify envelope)])
  ∧ received host (effects_of (client_onmessage G data r))
    = [JSON_stringify envelope]
  ∧ (∀ ws, ws ≠ host →
       received ws (effects_of (client_onmessage G data r)) = [])
  ∧ read_clientID envelope = Ret (Some (JSString G))
  ∧ (∀ k, k ≠ "clientID" →
       assoc k (own_props envelope) = assoc k (own_props message))
  ∧ (∀ props, message = JSObject props →
       ∃ props', envelope = JSObject props'
         ∧ props'.*1 = match assoc "clientID" props with
                       | Some _ => props.*1
                       | None => (props.*1 ++ ["clientID"])%list
                       end
         ∧ ∀ k, assoc k props' = if decide (k = "clientID")
                                 then Some (JSString G)
                                 else assoc k props)
  ∧ (∀ props, message = JSObject props →
       assoc "clientID" props = None →
       without_clientID envelope = message).
Proof.
  intros Hparse Hhost envelope.
  rewrite client_onmessage_eq, Hparse, Hhost. unfold effects_of. simpl.
  split_and!.
  - done.
  - by rewrite received_one, decide_True.
  - intros ws Hws. by rewrite received_one, decide_False.
  - unfold envelope, with_clientID. simpl. by rewrite assoc_define_prop_eq.
  - intros k Hk. unfold envelope, with_clientID. simpl.
    by apply assoc_define_prop_ne.
  - intros props ->. eexists. split; [done|]. simpl. split.
    + apply keys_define_prop.
    + intros k. destruct (decide (k = "clientID")) as [->|Hk].
      * apply assoc_define_prop_eq.
      * by apply assoc_define_prop_ne.
  - intros props -> Habsent. unfold envelope, with_clientID. simpl.
    by rewrite filter_define_prop_absent.
Qed.

(** C2.  The host sends a message that [JSON.parse] accepts and whose
    [clientID] is the identifier [G] of a guest (an identifier is not the
    empty string).  If [G] is a key of [clientConns], the handler sends
    the socket registered under [G] the text of the parsed message itself,
    sends no other socket anything, and leaves the room as it is.  If the
    target (a string or not) is no key of [clientConns], the handler leaves
    the room as it is and only writes to the console: no socket, the
    host's included, is sent anything or closed. *)
Theorem host_message_routed_to_target r data message :
  JSON_parse data = Some message →
  (∀ G guestWs,
     read_clientID message = Ret (Some (JSString G)) → G ≠ EmptyString →
     JSMap.get (clientConns r) G = Some guestWs →
     server_onmessage data r
       = (Ret tt, r, [ws_send guestWs (JSON_stringify message)])
     ∧ received guestWs (effects_of (server_onmessage data r))
       = [JSON_stringify message]
     ∧ ∀ ws, ws ≠ guestWs →
         received ws (effects_of (server_onmessage data r)) = [])
  ∧ (∀ target,
       read_clientID message = Ret (Some target) →
       JSMap.get_value (clientConns r) target = None →
       state_of (server_onmessage data r) = r
       ∧ outcome_of (server_onmessage data r) = Ret tt
       ∧ Forall (λ e, is_console e = true)
                (effects_of (server_onmessage data r))
       ∧ ∀ ws, received ws (effects_of (server_onmessage data r)) = []).
Proof.
  intros Hparse. split.
  - intros G guestWs Htarget HG Hget.
    rewrite server_onmessage_eq, Hparse, Htarget.
    assert (ToBoolean (Some (JSString G)) = true) as -> by by destruct G.
    change (JSMap.get_value (clientConns r) (JSString G))
      with (JSMap.get (clientConns r) G).
    rewrite Hget. unfold effects_of. simpl.
    split_and!; [done| |].
    + by rewrite received_one, decide_True.
    + intros ws Hws. by rewrite received_one, decide_False.
  - intros target Htarget Hget.
    rewrite server_onmessage_eq, Hparse, Htarget, Hget.
    unfold unknown_client_line.
    destruct (ToBoolean (Some target)), (ToString_throws target);
      unfold effects_of; simpl; split_and!; try done; by repeat constructor.
Qed.

(** C3.  The host slot is an [option]: it holds one socket or none.
    [handleServerConn ws] on a room whose slot is empty stores [ws] in the
    slot and leaves [clientConns] as it is.  On a room whose slot is taken
    it writes the rejection to the console and goes on to send [ws] the
    error object; [ws] is still connecting, so the send throws its
    [InvalidStateError]: [ws] is sent nothing, the close of [ws] is not
    reached, and the exception leaves [handleServerConn].  The room stays as
    it is (the host stays in the slot, [clientConns] is the same) and [ws]
    gets no handlers. *)
Theorem handleServerConn_one_host r ws :
  match serverConn r with
  | Some host =>
      handleServerConn ws r
        = (Throw InvalidStateError, r,
           [console_log (InRoom (tag r) RejectedServerConn)])
      ∧ serverConn (state_of (handleServerConn ws r)) = Some host
      ∧ received ws (effects_of (handleServerConn ws r)) = []
      ∧ closed (effects_of (handleServerConn ws r)) = []
  | None =>
      outcome_of (handleServerConn ws r) = Ret (Some ServerHandlers)
      ∧ serverConn (state_of (handleServerConn ws r)) = Some ws
      ∧ received ws (effects_of (handleServerConn ws r)) = []
      ∧ closed (effects_of (handleServerConn ws r)) = []
  end
  ∧ clientConns (state_of (handleServerConn ws r)) = clientConns r
  ∧ id (state_of (handleServerConn ws r)) = id r.
Proof.
  rewrite handleServerConn_eq.
  destruct (serverConn r) as [host|] eqn:Hhost; unfold effects_of, state_of,
    outcome_of, received, closed; simpl; done.
Qed.

(** C4.  When the host socket closes, [server_onclose] empties the host
    slot, closes the socket of every entry of [clientConns], in insertion
    order and nothing else, and leaves [clientConns] empty; whatever the
    number of guests. *)
Theorem server_onclose_evicts_all r :
  serverConn (state_of (server_onclose r)) = None
  ∧ clientConns (state_of (server_onclose r)) = []
  ∧ closed (effects_of (server_onclose r)) = JSMap.values (clientConns r)
  ∧ (∀ G guestWs, JSMap.get (clientConns r) G = Some guestWs →
       ws_close guestWs ∈ effects_of (server_onclose r))
  ∧ (∀ ws, received ws (effects_of (server_onclose r)) = [])
  ∧ id (state_of (server_onclose r)) = id r.
Proof.
  rewrite server_onclose_eq. unfold state_of, effects_of. simpl.
  split_and!; try done.
  - unfold closed. csimpl. apply closed_ws_close.
  - intros G guestWs Hget. apply list_elem_of_further, list_elem_of_fmap.
    exists guestWs. split; [done|]. unfold JSMap.values.
    apply list_elem_of_fmap. exists (G, guestWs). split; [done|].
    by apply assoc_Some_elem.
  - intros ws. unfold received. csimpl.
    induction (JSMap.values (clientConns r)) as [|c l IH]; by csimpl.
Qed.
(** What [null] gives as a host message: [message.clientID] throws, and
    the [catch] writes the error to the console. *)
Lemma server_onmessage_null data r :
  JSON_parse data = Some JSNull →
  server_onmessage data r
  = (Ret tt, r, [console_error (InRoom (tag r) (ErrorFromServer TypeError))]).
Proof. intros Hparse. by rewrite server_onmessage_eq, Hparse. Qed.

(** C5 (as amended).  A message that cannot be routed is dropped, the
    sender is sent nothing, no socket is closed and the room stays as it
    is.  A host message whose [clientID] is absent (or falsy) is dropped
    without a console line.  A host message whose target is no key of
    [clientConns] is dropped with one console line: the line of the unknown
    client, which it always is for a target that is a string, as the
    identifier of a guest is; for a target that cannot be put into that
    line, the error line of the [catch].  A guest message that arrives while
    the host slot is empty is dropped with the console line of the missing
    server connection. *)
Theorem unroutable_message_dropped r :
  (∀ data message target,
     JSON_parse data = Some message →
     read_clientID message = Ret target → ToBoolean target = false →
     server_onmessage data r = (Ret tt, r, []))
  ∧ (∀ data message target,
       JSON_parse data = Some message →
       read_clientID message = Ret (Some target) →
       ToBoolean (Some target) = true →
       JSMap.get_value (clientConns r) target = None →
       server_onmessage data r = (Ret tt, r, [unknown_client_line r target])
       ∧ is_console (unknown_client_line r target) = true
       ∧ (ToString_throws target = false →
          unknown_client_line r target
          = console_log (InRoom (tag r) (UnknownClient target)))
       ∧ (∀ G, target = JSString G → ToString_throws target = false))
  ∧ (∀ G data message,
       JSON_parse data = Some message → serverConn r = None →
       client_onmessage G data r
       = (Ret tt, r, [console_log (InRoom (tag r) (NoServerConnection G))])).
Proof.
  split_and!.
  - intros data message target Hparse Hread Hfalsy.
    rewrite server_onmessage_eq, Hparse, Hread.
    destruct target as [target|]; [|done]. by rewrite Hfalsy.
  - intros data message target Hparse Hread Htruthy Hget.
    rewrite server_onmessage_eq, Hparse, Hread, Htruthy, Hget.
    unfold unknown_client_line. split_and!.
    + done.
    + by destruct (ToString_throws target).
    + by intros ->.
    + by intros G ->.
  - intros G data message Hparse Hhost.
    by rewrite client_onmessage_eq, Hparse, Hhost.
Qed.

(** C8.  [client_onclose G] removes [G] from [clientConns]; run a second
    time it changes nothing more; it leaves the host slot, the entry of
    every other guest and the room id as they are, changes nothing at all
    when [G] is not a key, and sends or closes no socket. *)
Theorem client_onclose_idempotent_isolated r G :
  let r1 := state_of (client_onclose G r) in
  JSMap.get (clientConns r1) G = None
  ∧ state_of (client_onclose G r1) = r1
  ∧ serverConn r1 = serverConn r
  ∧ id r1 = id r
  ∧ (∀ G', G' ≠ G →
       JSMap.get (clientConns r1) G' = JSMap.get (clientConns r) G')
  ∧ (JSMap.get (clientConns r) G = None → r1 = r)
  ∧ closed (effects_of (client_onclose G r)) = []
  ∧ (∀ ws, received ws (effects_of (client_onclose G r)) = []).
Proof.
  intros r1. unfold r1. rewrite !client_onclose_eq.
  unfold state_of, effects_of. simpl. split_and!; try done.
  - apply get_delete_eq.
  - unfold set_clientConns. simpl. by rewrite delete_delete.
  - intros G' HG'. by apply get_delete_ne.
  - intros Hget. rewrite delete_absent by done. apply set_clientConns_id.
Qed.

(** C9.  A host message that parses to an object whose [clientID] is the
    empty string, zero, [false] or [null] leaves the room as it is and
    performs no effect at all: no lookup result is used, nothing is sent,
    nothing is written to the console.  That is what a host message
    without a [clientID] gives. *)
Theorem falsy_target_like_absent r data props target :
  JSON_parse data = Some (JSObject props) →
  assoc "clientID" props = Some target →
  target = JSString EmptyString ∨ (∃ sign, target = JSNumber (S754_zero sign))
    ∨ target = JSBool false ∨ target = JSNull →
  server_onmessage data r = (Ret tt, r, [])
  ∧ ∀ data' props',
      JSON_parse data' = Some (JSObject props') →
      assoc "clientID" props' = None →
      server_onmessage data' r = server_onmessage data r.
Proof.
  intros Hparse Hprop Hfalsy.
  assert (ToBoolean (Some target) = false) as Hbool.
  { destruct Hfalsy as [->|[[sign ->]|[->| ->]]]; done. }
  assert (server_onmessage data r = (Ret tt, r, [])) as Heq.
  { rewrite server_onmessage_eq, Hparse. simpl. by rewrite Hprop, Hbool. }
  split; [done|]. intros data' props' Hparse' Hprop'.
  rewrite Heq, server_onmessage_eq, Hparse'. simpl. by rewrite Hprop'.
Qed.
End RoomProperties.

(** ** The process *)

Arguments handleWebSocket : simpl never.
Arguments handleCreateRoom : simpl never.

Section ProcessProperties.
Context `{Platform}.
Implicit Types (s : Server) (r : Room) (ws : WebSocket) (ev : Event)
  (evs : list Event).

Lemma set_heap_id s r this :
  heap s !! this = Some r → set_heap (<[this := r]> (heap s)) s = s.
Proof.
  intros Hr. unfold set_heap. rewrite list_insert_id by done. by destruct s.
Qed.

Lemma on_room_eq {A} (m : Run Room A) this s r :
  heap s !! this = Some r →
  on_room this m s =
  (outcome_of (m r), set_heap (<[this := state_of (m r)]> (heap s)) s,
   effects_of (m r)).
Proof.
  intros Hr. unfold on_room. rewrite Hr. by destruct (m r) as [[o r'] out].
Qed.

Lemma step_message_wired ws data s this h r :
  wired s !! ws = Some (this, h) → heap s !! this = Some r →
  step (Message ws data) s =
  (Ret None, set_heap (<[this := state_of (on_message h data r)]> (heap s)) s,
   effects_of (on_message h data r)).
Proof.
  intros Hw Hr. unfold step. run_unfold. simpl. rewrite Hw. simpl.
  rewrite (on_room_eq _ _ _ _ Hr).
  assert (outcome_of (on_message h data r) = Ret tt) as ->.
  { destruct h; simpl.
    - rewrite server_onmessage_eq. repeat case_match; done.
    - rewrite client_onmessage_eq. repeat case_match; done. }
  by rewrite !app_nil_r.
Qed.

Lemma step_close_wired ws s this h r :
  wired s !! ws = Some (this, h) → heap s !! this = Some r →
  step (Close ws) s =
  (Ret None, set_heap (<[this := state_of (on_close h r)]> (heap s)) s,
   effects_of (on_close h r)).
Proof.
  intros Hw Hr. unfold step. run_unfold. simpl. rewrite Hw. simpl.
  rewrite (on_room_eq _ _ _ _ Hr).
  assert (outcome_of (on_close h r) = Ret tt) as ->.
  { destruct h; simpl; [by rewrite server_onclose_eq | done]. }
  by rewrite !app_nil_r.
Qed.

Lemma step_unwired ws ev s :
  wired s !! ws = None → on_socket ws ev = true →
  step ev s = (Ret None, s, []).
Proof.
  intros Hw Hev. destruct ev as [| | ws' data | ws']; simpl in Hev; [done..| |];
    apply bool_decide_eq_true in Hev as ->;
    unfold step; run_unfold; simpl; by rewrite Hw.
Qed.

(** C7.  A socket [ws] carries the handlers of a room, as its host or as
    one of its guests, and receives data that [JSON.parse] rejects.  The
    event leaves the whole state of the process as it is: the host slot
    and [clientConns] of every room, and the handlers on every socket,
    those on [ws] included.  Its only effect is one [console.error] line:
    no socket is closed and none is sent anything. *)
Theorem unparsable_message_dropped s ws this h r data :
  wired s !! ws = Some (this, h) →
  heap s !! this = Some r →
  JSON_parse data = None →
  step (Message ws data) s
  = (Ret None, s,
     [console_error (InRoom (tag r)
        match h with
        | ServerHandlers => ErrorFromServer SyntaxError
        | ClientHandlers G => ErrorFromClient G SyntaxError
        end)])
  ∧ wired (state_of (step (Message ws data) s)) !! ws = Some (this, h)
  ∧ heap (state_of (step (Message ws data) s)) !! this = Some r
  ∧ closed (effects_of (step (Message ws data) s)) = []
  ∧ ∀ ws', received ws' (effects_of (step (Message ws data) s)) = [].
Proof.
  intros Hw Hr Hparse.
  assert (step (Message ws data) s
          = (Ret None, s,
             [console_error (InRoom (tag r)
                match h with
                | ServerHandlers => ErrorFromServer SyntaxError
                | ClientHandlers G => ErrorFromClient G SyntaxError
                end)])) as ->.
  { rewrite (step_message_wired _ _ _ _ _ _ Hw Hr). destruct h; simpl.
    - rewrite server_onmessage_eq, Hparse. unfold state_of, effects_of. simpl.
      by rewrite set_heap_id.
    - rewrite client_onmessage_eq, Hparse. unfold state_of, effects_of. simpl.
      by rewrite set_heap_id. }
  done.
Qed.
(** What the creation of a room does to the process. *)
Lemma handleCreateRoom_eq s :
  handleCreateRoom s =
  let roomId := crypto_randomUUID (uuid_calls s) in
  (Ret (mkResponse 200 roomId),
   mkServer (heap s ++ [mkRoom roomId None []])
            (<[roomId := length (heap s)]> (rooms s))
            (wired s) (S (uuid_calls s)),
   [console_log (InRoom (substring 0 6 roomId) Initialized);
    console_log (CreatedRoom roomId)]).
Proof. done. Qed.

Lemma step_create ev s :
  is_create ev = true →
  step ev s =
  let roomId := crypto_randomUUID (uuid_calls s) in
  (Ret (Some (mkResponse 200 roomId)),
   mkServer (heap s ++ [mkRoom roomId None []])
            (<[roomId := length (heap s)]> (rooms s))
            (wired s) (S (uuid_calls s)),
   [console_log (InRoom (substring 0 6 roomId) Initialized);
    console_log (CreatedRoom roomId)]).
Proof.
  destruct ev as [method pathname roomId role socket|method pathname roomId role
                 | |];
    [| |done..]; simpl; intros Hc; unfold step, serve; by rewrite Hc.
Qed.

(** Every method of a room keeps its [id]. *)
Lemma on_message_id h data r : id (state_of (on_message h data r)) = id r.
Proof.
  destruct h; simpl.
  - rewrite server_onmessage_eq. by repeat case_match.
  - rewrite client_onmessage_eq. by repeat case_match.
Qed.

Lemma on_close_id h r : id (state_of (on_close h r)) = id r.
Proof. destruct h; simpl; [by rewrite server_onclose_eq | done]. Qed.

Lemma handleServerConn_id ws r : id (state_of (handleServerConn ws r)) = id r.
Proof. rewrite handleServerConn_eq. by case_match. Qed.

(** What a request for a socket does to the process, case by case. *)
Lemma handleWebSocket_eq roomId role upgrade s :
  handleWebSocket roomId role upgrade s =
  match roomId, role with
  | Some roomId, Some role =>
      if missing (Some roomId) || missing (Some role)
      then (Ret (mkResponse 400 "Missing 'room-id' or 'role' query parameters"),
            s, [])
      else if bool_decide (role ≠ "client") && bool_decide (role ≠ "server")
      then (Ret (mkResponse 400 "Role must be 'client' or 'server'"), s, [])
      else
        match rooms s !! roomId with
        | None =>
            (Ret (mkResponse 404
                    ("Room with ID '" ++ roomId ++ "' not found")%string),
             s, [])
        | Some this =>
            match upgrade with
            | None => (Throw TypeError, s, [])
            | Some socket =>
                match heap s !! this with
                | None => (Throw TypeError, s, [])
                | Some r =>
                    if bool_decide (role = "client")
                    then
                      let clientId := crypto_randomUUID (uuid_calls s) in
                      (Ret (mkResponse 101 EmptyString),
                       mkServer
                         (<[this := state_of
                                      (handleClientConn clientId socket r)]>
                            (heap s))
                         (rooms s)
                         (<[socket := (this, ClientHandlers clientId)]>
                            (wired s))
                         (S (uuid_calls s)),
                       console_log (AddingConn role (tag r))
                         :: effects_of (handleClientConn clientId socket r))
                    else
                      match serverConn r with
                      | Some _ =>
                          (Throw InvalidStateError, s,
                           [console_log (AddingConn role (tag r));
                            console_log (InRoom (tag r) RejectedServerConn)])
                      | None =>
                          (Ret (mkResponse 101 EmptyString),
                           mkServer
                             (<[this := set_serverConn (Some socket) r]>
                                (heap s))
                             (rooms s)
                             (<[socket := (this, ServerHandlers)]> (wired s))
                             (uuid_calls s),
                           [console_log (AddingConn role (tag r));
                            console_log (InRoom (tag r) RegisteredServerConn)])
                      end
                end
            end
        end
  | _, _ =>
      (Ret (mkResponse 400 "Missing 'room-id' or 'role' query parameters"),
       s, [])
  end.
Proof.
  unfold handleWebSocket.
  destruct roomId as [roomId|], role as [role|]; try done.
  destruct (missing (Some roomId) || missing (Some role)); [done|].
  destruct (bool_decide (role ≠ "client") && bool_decide (role ≠ "server"));
    [done|].
  run_unfold. simpl.
  destruct (rooms s !! roomId) as [this|] eqn:Hroom; simpl; [|done].
  destruct upgrade as [socket|]; simpl; [|done].
  unfold on_room at 1. simpl.
  destruct (heap s !! this) as [r|] eqn:Hr; simpl; [|done].
  rewrite list_insert_id by done.
  destruct (bool_decide (role = "client")); simpl.
  - unfold randomUUID, on_room. simpl. rewrite Hr. by destruct s.
  - unfold on_room. simpl. rewrite Hr. rewrite handleServerConn_eq.
    destruct (serverConn r); simpl.
    + unfold set_heap. simpl. rewrite list_insert_id by done. by destruct s.
    + by destruct s.
Qed.
Lemma step_message_eq ws data s :
  step (Message ws data) s =
  match wired s !! ws with
  | Some (this, h) =>
      match heap s !! this with
      | Some r =>
          (Ret None,
           set_heap (<[this := state_of (on_message h data r)]> (heap s)) s,
           effects_of (on_message h data r))
      | None => (Throw TypeError, s, [])
      end
  | None => (Ret None, s, [])
  end.
Proof.
  destruct (wired s !! ws) as [[this h]|] eqn:Hw.
  - destruct (heap s !! this) as [r|] eqn:Hr.
    + by apply step_message_wired.
    + unfold step, on_room. run_unfold. simpl. by rewrite Hw, Hr.
  - by apply (step_unwired ws); [|simpl; rewrite bool_decide_true].
Qed.

Lemma step_close_eq ws s :
  step (Close ws) s =
  match wired s !! ws with
  | Some (this, h) =>
      match heap s !! this with
      | Some r =>
          (Ret None, set_heap (<[this := state_of (on_close h r)]> (heap s)) s,
           effects_of (on_close h r))
      | None => (Throw TypeError, s, [])
      end
  | None => (Ret None, s, [])
  end.
Proof.
  destruct (wired s !! ws) as [[this h]|] eqn:Hw.
  - destruct (heap s !! this) as [r|] eqn:Hr.
    + by apply step_close_wired.
    + unfold step, on_room. run_unfold. simpl. by rewrite Hw, Hr.
  - by apply (step_unwired ws); [|simpl; rewrite bool_decide_true].
Qed.

Lemma step_as_request ev method pathname roomId role upgrade s :
  as_request ev = Some (method, pathname, roomId, role, upgrade) →
  step ev s =
  match serve method pathname roomId role upgrade s with
  | (Ret response, s', out) => (Ret (Some response), s', out)
  | (Throw e, s', out) => (Throw e, s', out)
  end.
Proof.
  intros Hreq.
  destruct ev; simplify_eq/=; unfold step; run_unfold;
    (destruct (serve method pathname roomId role _ s) as [[[response|e] s'] out];
     [|done]); by rewrite app_nil_r.
Qed.

Lemma state_as_request ev method pathname roomId role upgrade s :
  as_request ev = Some (method, pathname, roomId, role, upgrade) →
  state_of (step ev s) = state_of (serve method pathname roomId role upgrade s).
Proof.
  intros Hreq. rewrite (step_as_request _ _ _ _ _ _ _ Hreq).
  by destruct (serve method pathname roomId role upgrade s) as [[[?|?] ?] ?].
Qed.

Lemma step_request_eq method pathname roomId role socket s :
  step (Request method pathname roomId role socket) s =
  match serve method pathname roomId role (Some socket) s with
  | (Ret response, s', out) => (Ret (Some response), s', out)
  | (Throw e, s', out) => (Throw e, s', out)
  end.
Proof. by apply step_as_request. Qed.

Lemma state_of_request method pathname roomId role socket s :
  state_of (step (Request method pathname roomId role socket) s)
  = state_of (serve method pathname roomId role (Some socket) s).
Proof. by apply state_as_request. Qed.

Lemma as_request_None ev :
  as_request ev = None → (∃ ws data, ev = Message ws data) ∨ (∃ ws, ev = Close ws).
Proof. destruct ev; try done; intros _; [left|right]; by eauto. Qed.

Lemma is_create_as_request ev method pathname roomId role upgrade :
  as_request ev = Some (method, pathname, roomId, role, upgrade) →
  is_create ev
  = bool_decide (method = "POST") && bool_decide (pathname = "/rooms").
Proof. intros Hreq. by destruct ev; simplify_eq/=. Qed.

Lemma upgrades_as_request ws ev method pathname roomId role upgrade :
  as_request ev = Some (method, pathname, roomId, role, upgrade) →
  upgrades ws ev = false → upgrade ≠ Some ws.
Proof.
  intros Hreq Hup. destruct ev; simplify_eq/=; [|done].
  apply bool_decide_eq_false in Hup. congruence.
Qed.

(** Handlers are put on a socket only by the request that is upgraded to
    it. *)
Lemma step_wired_other ws ev s :
  upgrades ws ev = false →
  wired (state_of (step ev s)) !! ws = wired s !! ws.
Proof.
  intros Hup.
  destruct (as_request ev) as [[[[[method pathname] roomId] role] upgrade]|]
    eqn:Hreq.
  - pose proof (upgrades_as_request _ _ _ _ _ _ _ Hreq Hup) as Hsocket.
    rewrite (state_as_request _ _ _ _ _ _ _ Hreq). unfold serve.
    destruct (bool_decide (method = "POST") && bool_decide (pathname = "/rooms")).
    { by rewrite handleCreateRoom_eq. }
    destruct (bool_decide (method = "GET") && bool_decide (pathname = "/ws"));
      [|done].
    rewrite handleWebSocket_eq.
    repeat case_match; unfold state_of; simpl; try done;
      rewrite lookup_insert_ne; congruence.
  - destruct (as_request_None ev Hreq) as [(ws' & data & ->)|(ws' & ->)].
    + rewrite step_message_eq. by repeat case_match.
    + rewrite step_close_eq. by repeat case_match.
Qed.

Lemma run_cons ev evs s :
  run (ev :: evs) s =
  (fst (run evs (state_of (step ev s))),
   (effects_of (step ev s) ++ snd (run evs (state_of (step ev s))))%list).
Proof.
  simpl. destruct (step ev s) as [[o s'] out]. unfold state_of, effects_of.
  simpl. by destruct (run evs s').
Qed.

Lemma run_app evs evs' s :
  fst (run (evs ++ evs') s) = fst (run evs' (fst (run evs s))).
Proof.
  revert s. induction evs as [|ev evs IH]; intros s; [done|].
  rewrite <- app_comm_cons, !run_cons. simpl. apply IH.
Qed.

(** A socket without handlers is deaf: the events on it can be left out
    of a run, as long as no request of the run is upgraded to it. *)
Lemma run_without_unwired ws evs s :
  wired s !! ws = None →
  Forall (λ ev, upgrades ws ev = false) evs →
  run evs s = run (filter (λ ev, on_socket ws ev = false) evs) s.
Proof.
  intros Hw Hevs. revert s Hw.
  induction Hevs as [|ev evs Hev Hevs IH]; intros s Hw; [done|].
  rewrite filter_cons. destruct (decide (on_socket ws ev = false)) as [Hon|Hon].
  - rewrite !run_cons. rewrite <- IH; [done|].
    by rewrite step_wired_other.
  - apply not_false_is_true in Hon.
    rewrite run_cons, (step_unwired ws) by done.
    unfold state_of, effects_of. simpl. rewrite <- IH by done.
    by destruct (run evs s).
Qed.

(** C10.  A request to join as the server peer reaches a room whose host
    slot is taken, with a socket [ws] that is new (it carries no
    handlers).  The rejection is written to the console and the handler of
    the request ends in the [InvalidStateError] of the send on the socket
    that is still connecting: nothing is sent to [ws] and [ws] is not
    closed.  The request changes nothing in the state of the process:
    [ws] gets no handlers, and the host slot and [clientConns] of the room
    are what they were.  From then on a message or a close on [ws] does
    nothing at all, whatever happened in between, so the events on [ws]
    can be taken out of any continuation without a change to the final
    state or to the effects.  (A socket is made for one request; no
    later request is upgraded to [ws].) *)
Theorem rejected_server_conn_inert s roomId this r host ws evs :
  roomId ≠ EmptyString →
  rooms s !! roomId = Some this →
  heap s !! this = Some r →
  serverConn r = Some host →
  wired s !! ws = None →
  Forall (λ ev, upgrades ws ev = false) evs →
  let attach := Request "GET" "/ws" (Some roomId) (Some "server") ws in
  step attach s
  = (Throw InvalidStateError, s,
     [console_log (AddingConn "server" (tag r));
      console_log (InRoom (tag r) RejectedServerConn)])
  ∧ wired (state_of (step attach s)) !! ws = None
  ∧ run evs (state_of (step attach s))
    = run (filter (λ ev, on_socket ws ev = false) evs)
          (state_of (step attach s))
  ∧ ∀ ev, on_socket ws ev = true →
      step ev (fst (run evs (state_of (step attach s))))
      = (Ret None, fst (run evs (state_of (step attach s))), []).
Proof.
  intros HroomId Hroom Hr Hhost Hw Hevs attach.
  assert (step attach s
          = (Throw InvalidStateError, s,
             [console_log (AddingConn "server" (tag r));
              console_log (InRoom (tag r) RejectedServerConn)])) as Hstep.
  { unfold attach. rewrite step_request_eq. unfold serve. simpl.
    rewrite handleWebSocket_eq.
    destruct roomId as [|c roomId]; [done|]. simpl.
    by rewrite Hroom, Hr, Hhost. }
  rewrite Hstep. unfold state_of. simpl.
  split_and!; [done|done|by apply run_without_unwired|].
  intros ev Hev. apply (step_unwired ws); [|done].
  clear Hstep Hroom Hr attach. revert s Hw.
  induction Hevs as [|ev' evs Hev' Hevs IH]; intros s Hw; [done|].
  rewrite run_cons. simpl. apply IH. by rewrite step_wired_other.
Qed.
(** *** The registry *)

Lemma ids_insert (l : list Room) this r r' :
  l !! this = Some r → id r' = id r → id <$> <[this := r']> l = id <$> l.
Proof.
  intros Hr Hid. rewrite list_fmap_insert, Hid.
  apply list_insert_id. by rewrite list_lookup_fmap, Hr.
Qed.

(** An event that creates no room leaves the registry and the ids of the
    rooms as they are, and takes no identifier back. *)
Lemma step_not_create ev s :
  is_create ev = false →
  rooms (state_of (step ev s)) = rooms s
  ∧ id <$> heap (state_of (step ev s)) = id <$> heap s
  ∧ uuid_calls s ≤ uuid_calls (state_of (step ev s)).
Proof.
  intros Hc.
  destruct (as_request ev) as [[[[[method pathname] roomId] role] upgrade]|]
    eqn:Hreq.
  - rewrite (is_create_as_request _ _ _ _ _ _ Hreq) in Hc.
    rewrite (state_as_request _ _ _ _ _ _ _ Hreq). unfold serve. rewrite Hc.
    destruct (bool_decide (method = "GET") && bool_decide (pathname = "/ws"));
      [|done].
    rewrite handleWebSocket_eq.
    repeat case_match; unfold state_of; simpl; try done;
      (split_and!; [done| |lia]); (eapply ids_insert; [done|]); done.
  - destruct (as_request_None ev Hreq) as [(ws & data & ->)|(ws & ->)].
    + rewrite step_message_eq.
      repeat case_match; unfold state_of; simpl; try done.
      split_and!; [done| |lia]. eapply ids_insert; [done|]. apply on_message_id.
    + rewrite step_close_eq.
      repeat case_match; unfold state_of; simpl; try done.
      split_and!; [done| |lia]. eapply ids_insert; [done|]. apply on_close_id.
Qed.

Lemma step_uuid_calls_mono ev s :
  uuid_calls s ≤ uuid_calls (state_of (step ev s)).
Proof.
  destruct (is_create ev) eqn:Hc.
  - rewrite step_create by done. unfold state_of. simpl. lia.
  - by apply step_not_create.
Qed.

Lemma run_uuid_calls_mono evs s : uuid_calls s ≤ uuid_calls (fst (run evs s)).
Proof.
  revert s. induction evs as [|ev evs IH]; intros s; [done|].
  rewrite run_cons. simpl. etrans; [apply (step_uuid_calls_mono ev)|apply IH].
Qed.

(** No event takes a key out of [rooms]. *)
Lemma step_rooms_kept ev s roomId :
  is_Some (rooms s !! roomId) →
  is_Some (rooms (state_of (step ev s)) !! roomId).
Proof.
  intros Hk. destruct (is_create ev) eqn:Hc.
  - rewrite step_create by done. unfold state_of. simpl.
    rewrite lookup_insert. by case_decide.
  - by destruct (step_not_create ev s Hc) as [-> _].
Qed.

Lemma run_rooms_kept evs s roomId :
  is_Some (rooms s !! roomId) →
  is_Some (rooms (fst (run evs s)) !! roomId).
Proof.
  revert s. induction evs as [|ev evs IH]; intros s Hk; [done|].
  rewrite run_cons. simpl. by apply IH, step_rooms_kept.
Qed.

Lemma registry_ok_initial : registry_ok initial.
Proof.
  split; intros roomId; simpl.
  - intros this. by rewrite lookup_empty.
  - rewrite lookup_empty. by intros [? ?].
Qed.

Lemma registry_ok_step ev s : registry_ok s → registry_ok (state_of (step ev s)).
Proof.
  intros [Hids Hkeys]. destruct (is_create ev) eqn:Hc.
  - rewrite step_create by done. unfold state_of. simpl. split; simpl.
    + intros roomId this. rewrite lookup_insert. case_decide as Hk.
      * intros [= <-]. subst roomId. rewrite fmap_app. simpl.
        rewrite lookup_app_r; rewrite length_fmap; [|done].
        by rewrite Nat.sub_diag.
      * intros Hroom. rewrite fmap_app, lookup_app_l; [by apply Hids|].
        apply lookup_lt_is_Some. rewrite (Hids _ _ Hroom). by eexists.
    + intros roomId. rewrite lookup_insert. case_decide as Hk.
      * intros _. exists (uuid_calls s). split; [lia|done].
      * intros Hroom. destruct (Hkeys _ Hroom) as (i & Hi & ->).
        exists i. split; [lia|done].
  - destruct (step_not_create ev s Hc) as (Hrooms & Hheap & Hcalls).
    split.
    + intros roomId this. rewrite Hrooms, Hheap. apply Hids.
    + intros roomId. rewrite Hrooms. intros Hroom.
      destruct (Hkeys _ Hroom) as (i & Hi & ->). exists i. split; [lia|done].
Qed.

Lemma registry_ok_run evs s : registry_ok s → registry_ok (fst (run evs s)).
Proof.
  revert s. induction evs as [|ev evs IH]; intros s Hs; [done|].
  rewrite run_cons. simpl. by apply IH, registry_ok_step.
Qed.

Lemma created_cons ev evs s :
  created (ev :: evs) s =
  if is_create ev
  then crypto_randomUUID (uuid_calls s) :: created evs (state_of (step ev s))
  else created evs (state_of (step ev s)).
Proof.
  simpl. destruct (is_create ev) eqn:Hc.
  - by rewrite step_create.
  - destruct (step ev s) as [[[[response|]|e] s'] out]; done.
Qed.

(** The identifiers handed out in a run are among those drawn in it, in
    the order of the draws. *)
Lemma created_sublist evs s :
  created evs s `sublist_of`
    (crypto_randomUUID <$>
       seq (uuid_calls s) (uuid_calls (fst (run evs s)) - uuid_calls s)).
Proof.
  revert s. induction evs as [|ev evs IH]; intros s.
  { simpl. apply sublist_nil_l. }
  rewrite created_cons, run_cons. simpl.
  pose proof (run_uuid_calls_mono evs (state_of (step ev s))) as Hrest.
  pose proof (step_uuid_calls_mono ev s) as Hstep.
  specialize (IH (state_of (step ev s))).
  set (s' := state_of (step ev s)) in *.
  set (final := uuid_calls (fst (run evs s'))) in *.
  replace (final - uuid_calls s)
    with ((uuid_calls s' - uuid_calls s) + (final - uuid_calls s')) by lia.
  rewrite seq_app, fmap_app.
  replace (uuid_calls s + (uuid_calls s' - uuid_calls s))
    with (uuid_calls s') by lia.
  destruct (is_create ev) eqn:Hc.
  - assert (uuid_calls s' = S (uuid_calls s)) as Hs'.
    { unfold s'. by rewrite step_create. }
    replace (uuid_calls s' - uuid_calls s) with 1 by lia. simpl.
    by apply sublist_skip.
  - by apply sublist_inserts_l.
Qed.

Lemma created_length evs s :
  length (created evs s) = length (filter (λ ev, is_create ev = true) evs).
Proof.
  revert s. induction evs as [|ev evs IH]; intros s; [done|].
  rewrite created_cons, filter_cons.
  destruct (is_create ev) eqn:Hc.
  - rewrite decide_True by done. simpl. by rewrite IH.
  - rewrite decide_False by done. apply IH.
Qed.

Lemma created_in_rooms evs s roomId :
  roomId ∈ created evs s → is_Some (rooms (fst (run evs s)) !! roomId).
Proof.
  revert s. induction evs as [|ev evs IH]; intros s.
  { simpl. by intros ?%elem_of_nil. }
  rewrite created_cons, run_cons. simpl.
  destruct (is_create ev) eqn:Hc; [|apply IH].
  intros [->|Hin]%elem_of_cons; [|by apply IH].
  apply run_rooms_kept. rewrite step_create by done. unfold state_of. simpl.
  by rewrite lookup_insert_eq.
Qed.

(** *** References *)

Lemma references_ok_initial : references_ok initial.
Proof. split; intros ?; simpl; intros ?; by rewrite lookup_empty. Qed.

Lemma step_heap_length ev s :
  length (heap s) ≤ length (heap (state_of (step ev s))).
Proof.
  destruct (is_create ev) eqn:Hc.
  - rewrite step_create by done. unfold state_of. simpl.
    rewrite length_app. simpl. lia.
  - destruct (step_not_create ev s Hc) as (_ & Hids & _).
    apply (f_equal length) in Hids. rewrite !length_fmap in Hids. lia.
Qed.

Lemma step_wired_new ev s ws this h :
  wired (state_of (step ev s)) !! ws = Some (this, h) →
  wired s !! ws = Some (this, h) ∨ is_Some (heap s !! this).
Proof.
  destruct (as_request ev) as [[[[[method pathname] roomId] role] upgrade]|]
    eqn:Hreq.
  - rewrite (state_as_request _ _ _ _ _ _ _ Hreq). unfold serve.
    destruct (bool_decide (method = "POST") && bool_decide (pathname = "/rooms")).
    { rewrite handleCreateRoom_eq. by left. }
    destruct (bool_decide (method = "GET") && bool_decide (pathname = "/ws"));
      [|by left].
    rewrite handleWebSocket_eq.
    repeat case_match; unfold state_of; simpl; try (by left);
      (rewrite lookup_insert;
       match goal with
       | |- context [decide (?a = ws)] => destruct (decide (a = ws))
       end; [|by intros ?; left]);
      intros [= <- <-]; right; by eexists.
  - destruct (as_request_None ev Hreq) as [(ws' & data & ->)|(ws' & ->)].
    + rewrite step_message_eq. repeat case_match; by left.
    + rewrite step_close_eq. repeat case_match; by left.
Qed.

Lemma references_ok_step ev s :
  references_ok s → references_ok (state_of (step ev s)).
Proof.
  intros [Hrooms Hwired].
  assert (∀ this, is_Some (heap s !! this) →
                  is_Some (heap (state_of (step ev s)) !! this)) as Hkept.
  { intros this Hthis%lookup_lt_is_Some. apply lookup_lt_is_Some.
    eapply Nat.lt_le_trans; [done|apply step_heap_length]. }
  split.
  - intros roomId this. destruct (is_create ev) eqn:Hc.
    + rewrite step_create by done. unfold state_of. simpl.
      rewrite lookup_insert. case_decide.
      * intros [= <-]. apply lookup_lt_is_Some. rewrite length_app. simpl. lia.
      * intros Hroom. apply lookup_lt_is_Some. rewrite length_app.
        apply Hrooms, lookup_lt_is_Some in Hroom. lia.
    + destruct (step_not_create ev s Hc) as (-> & _ & _).
      intros Hroom. by eapply Hkept, Hrooms.
  - intros ws this h Hw. apply Hkept.
    destruct (step_wired_new _ _ _ _ _ Hw) as [Hold|Hnew]; [|done].
    by eapply Hwired.
Qed.

Lemma references_ok_run evs s : references_ok s → references_ok (fst (run evs s)).
Proof.
  revert s. induction evs as [|ev evs IH]; intros s Hs; [done|].
  rewrite run_cons. simpl. by apply IH, references_ok_step.
Qed.

(** The handler of a message or of a close returns. *)
Lemma handler_returns ev s :
  references_ok s → as_request ev = None → outcome_of (step ev s) = Ret None.
Proof.
  intros [Hrooms Hwired] Hreq.
  destruct (as_request_None ev Hreq) as [(ws & data & ->)|(ws & ->)].
  - rewrite step_message_eq. destruct (wired s !! ws) as [[this h]|] eqn:Hw;
      [|done].
    by destruct (Hwired _ _ _ Hw) as [r ->].
  - rewrite step_close_eq. destruct (wired s !! ws) as [[this h]|] eqn:Hw;
      [|done].
    by destruct (Hwired _ _ _ Hw) as [r ->].
Qed.

(** The requests whose handler throws. *)
Lemma request_throws ev method pathname roomId role upgrade s e :
  references_ok s →
  as_request ev = Some (method, pathname, roomId, role, upgrade) →
  outcome_of (step ev s) = Throw e ↔
  method = "GET" ∧ pathname = "/ws"
  ∧ ∃ key name this r,
      roomId = Some key ∧ role = Some name ∧ key ≠ EmptyString
      ∧ rooms s !! key = Some this ∧ heap s !! this = Some r
      ∧ ((name = "client" ∨ name = "server")
         ∧ upgrade = None ∧ e = TypeError
         ∨ name = "server" ∧ is_Some upgrade ∧ is_Some (serverConn r)
           ∧ e = InvalidStateError).
Proof.
  intros [Hrooms _] Hreq. rewrite (step_as_request _ _ _ _ _ _ _ Hreq).
  unfold serve. split.
  - destruct (bool_decide (method = "POST") && bool_decide (pathname = "/rooms")).
    { by rewrite handleCreateRoom_eq. }
    destruct (bool_decide (method = "GET") && bool_decide (pathname = "/ws"))
      eqn:Hget; [|done].
    apply andb_true_iff in Hget
      as [->%bool_decide_eq_true ->%bool_decide_eq_true].
    rewrite handleWebSocket_eq.
    destruct roomId as [key|]; [|by destruct role].
    destruct role as [name|]; [|done].
    destruct (missing (Some key) || missing (Some name)) eqn:Hmissing; [done|].
    destruct (bool_decide (name ≠ "client") && bool_decide (name ≠ "server"))
      eqn:Hrole; [done|].
    assert (key ≠ EmptyString) as Hkey by (by intros ->).
    assert (name = "client" ∨ name = "server") as Hname.
    { apply andb_false_iff in Hrole as [Hn|Hn]; apply bool_decide_eq_false in Hn;
        apply dec_stable in Hn; auto. }
    destruct (rooms s !! key) as [this|] eqn:Hroom; [|done].
    destruct (Hrooms _ _ Hroom) as [r Hr]. rewrite Hr.
    destruct upgrade as [socket|].
    + destruct (bool_decide (name = "client")) eqn:Hclient; [done|].
      apply bool_decide_eq_false in Hclient.
      destruct Hname as [->| ->]; [done|].
      destruct (serverConn r) as [host|] eqn:Hhost; [|done].
      unfold outcome_of. cbn [fst]. intros [= <-]. split_and!; try done.
      exists key, "server", this, r. split_and!; try done.
      right. split_and!; by eauto.
    + unfold outcome_of. cbn [fst]. intros [= <-]. split_and!; try done.
      exists key, name, this, r. split_and!; try done. by left.
  - intros (-> & -> & key & name & this & r & -> & -> & Hkey & Hroom & Hr & Hcase).
    rewrite bool_decide_false by done. cbn [andb].
    rewrite !bool_decide_true by done. cbn [andb].
    rewrite handleWebSocket_eq.
    destruct key as [|c key]; [done|].
    destruct Hcase as [(Hname & -> & ->)|(-> & [socket ->] & [host Hhost] & ->)].
    + destruct Hname as [->| ->]; cbn; by rewrite Hroom.
    + cbn. by rewrite Hroom, Hr, Hhost.
Qed.

(** C6.  Take any run of the process from its start, and let
    [crypto.randomUUID] return no value twice in it.  Then the identifiers
    that the requests to create a room were answered with are pairwise
    distinct, one for each such request.  Each of them is a key of [rooms],
    bound to a room that has it as [id], at the end of the run and after
    any events that follow (nothing takes a room out of the registry).
    And at the moment a request to create a room is answered, the
    identifier it returns was not a key of [rooms] before and is one
    after. *)
Theorem created_room_ids_distinct_and_kept evs :
  NoDup (crypto_randomUUID <$> seq 0 (uuid_calls (fst (run evs initial)))) →
  NoDup (created evs initial)
  ∧ length (created evs initial)
    = length (filter (λ ev, is_create ev = true) evs)
  ∧ (∀ roomId evs',
       roomId ∈ created evs initial →
       ∃ this r,
         rooms (fst (run (evs ++ evs') initial)) !! roomId = Some this
         ∧ heap (fst (run (evs ++ evs') initial)) !! this = Some r
         ∧ id r = roomId)
  ∧ (∀ evs1 ev evs2,
       evs = (evs1 ++ ev :: evs2)%list → is_create ev = true →
       ∃ roomId,
         outcome_of (step ev (fst (run evs1 initial)))
         = Ret (Some (mkResponse 200 roomId))
         ∧ rooms (fst (run evs1 initial)) !! roomId = None
         ∧ is_Some (rooms (state_of (step ev (fst (run evs1 initial))))
                      !! roomId)).
Proof.
  intros Hfresh. split_and!.
  - eapply sublist_NoDup; [exact Hfresh|].
    pose proof (created_sublist evs initial) as Hsub. simpl in Hsub.
    by rewrite Nat.sub_0_r in Hsub.
  - apply created_length.
  - intros roomId evs' Hin.
    assert (is_Some (rooms (fst (run (evs ++ evs') initial)) !! roomId))
      as [this Hthis].
    { rewrite run_app. by apply run_rooms_kept, created_in_rooms. }
    destruct (registry_ok_run (evs ++ evs') initial registry_ok_initial)
      as [Hids _].
    specialize (Hids _ _ Hthis). rewrite list_lookup_fmap in Hids.
    destruct (heap (fst (run (evs ++ evs') initial)) !! this) as [r|] eqn:Hr;
      [|done].
    exists this, r. by simplify_eq/=.
  - intros evs1 ev evs2 -> Hc.
    set (s1 := fst (run evs1 initial)) in *.
    exists (crypto_randomUUID (uuid_calls s1)).
    rewrite step_create by done. unfold outcome_of, state_of. simpl.
    split_and!; [done| |by rewrite lookup_insert_eq].
    destruct (rooms s1 !! crypto_randomUUID (uuid_calls s1)) as [this|] eqn:Hk;
      [|done].
    destruct (registry_ok_run evs1 initial registry_ok_initial) as [_ Hkeys].
    destruct (Hkeys (crypto_randomUUID (uuid_calls s1))) as (i & Hi & Heq).
    { by eexists. }
    fold s1 in Hi.
    assert (uuid_calls s1 < uuid_calls (fst (run (evs1 ++ ev :: evs2) initial)))
      as Hlt.
    { rewrite run_app. fold s1. rewrite run_cons. simpl.
      eapply Nat.lt_le_trans; [|apply run_uuid_calls_mono].
      rewrite step_create by done. unfold state_of. simpl. lia. }
    rewrite NoDup_alt in Hfresh.
    assert (uuid_calls s1 = i); [|lia].
    eapply Hfresh; rewrite list_lookup_fmap.
    + rewrite lookup_seq_lt by done. done.
    + rewrite lookup_seq_lt by lia. simpl. by rewrite <- Heq.
Qed.
End ProcessProperties.

(** ** More on the handlers of a room *)

Section RoomExtras.
Context `{Platform}.
Implicit Types (r : Room) (ws host : WebSocket) (G data : string)
  (message : JSValue).

Lemma on_message_state h data r : state_of (on_message h data r) = r.
Proof.
  destruct h; simpl.
  - rewrite server_onmessage_eq. by repeat case_match.
  - rewrite client_onmessage_eq. by repeat case_match.
Qed.

Lemma handleServerConn_clientConns ws r :
  clientConns (state_of (handleServerConn ws r)) = clientConns r.
Proof. rewrite handleServerConn_eq. by case_match. Qed.

Lemma on_message_effects h data r :
  length (effects_of (on_message h data r)) ≤ 1
  ∧ closed (effects_of (on_message h data r)) = [].
Proof.
  destruct h; simpl.
  - rewrite server_onmessage_eq. unfold unknown_client_line.
    repeat case_match; simpl; split; (lia || done).
  - rewrite client_onmessage_eq. repeat case_match; simpl; split; (lia || done).
Qed.

Lemma get_value_Some_values (m : list (string * WebSocket)) target ws :
  JSMap.get_value m target = Some ws → ws ∈ JSMap.values m.
Proof.
  destruct target; try done. simpl. intros Hget%assoc_Some_elem.
  unfold JSMap.values. apply list_elem_of_fmap. by exists (s, ws).
Qed.

(** X1.  Whatever a peer sends, the message stays in its room and goes
    the other way: a send made by the host's message handler is to a socket
    of [clientConns] and carries the text of the parsed message itself; a
    send made by a guest's message handler is to the socket in the host slot
    and carries the parsed message with the guest's own id.  So no guest is
    ever sent what another guest wrote, and the host is never sent its own
    message. *)
Theorem messages_stay_in_room r data ws text :
  (ws_send ws text ∈ effects_of (server_onmessage data r) →
   ws ∈ JSMap.values (clientConns r)
   ∧ ∃ message, JSON_parse data = Some message
                ∧ text = JSON_stringify message)
  ∧ (∀ G, ws_send ws text ∈ effects_of (client_onmessage G data r) →
       serverConn r = Some ws
       ∧ ∃ message, JSON_parse data = Some message
                    ∧ text = JSON_stringify (with_clientID message G)).
Proof.
  split.
  - rewrite server_onmessage_eq.
    destruct (JSON_parse data) as [message|]; unfold effects_of; simpl.
    2: { by intros [?|?%elem_of_nil]%elem_of_cons. }
    destruct (read_clientID message) as [[target|]|e]; simpl.
    + destruct (ToBoolean (Some target)); simpl; [|by intros ?%elem_of_nil].
      destruct (JSMap.get_value (clientConns r) target) as [clientWs|] eqn:Hget;
        simpl; intros [Heq|?%elem_of_nil]%elem_of_cons; try done.
      2: { unfold unknown_client_line in Heq.
           by destruct (ToString_throws target). }
      injection Heq as -> ->. split; [by eapply get_value_Some_values|].
      by exists message.
    + by intros ?%elem_of_nil.
    + by intros [?|?%elem_of_nil]%elem_of_cons.
  - intros G. rewrite client_onmessage_eq.
    destruct (JSON_parse data) as [message|]; unfold effects_of; simpl.
    2: { by intros [?|?%elem_of_nil]%elem_of_cons. }
    destruct (serverConn r) as [host|]; simpl;
      intros [Heq|?%elem_of_nil]%elem_of_cons; try done.
    injection Heq as -> ->. split; [done|]. by exists message.
Qed.

(** X2.  A host message whose payload is not an object is never routed:
    the room stays as it is, no socket is sent anything or closed.  For
    [null] the failed read of [clientID] is written to the console as a
    [TypeError]; for a boolean, a number, a string or an array nothing is
    written at all. *)
Theorem host_non_object_never_routed r data message :
  JSON_parse data = Some message →
  (∀ props, message ≠ JSObject props) →
  server_onmessage data r
  = (Ret tt, r,
     match message with
     | JSNull => [console_error (InRoom (tag r) (ErrorFromServer TypeError))]
     | _ => []
     end)
  ∧ (∀ ws, received ws (effects_of (server_onmessage data r)) = [])
  ∧ closed (effects_of (server_onmessage data r)) = [].
Proof.
  intros Hparse Hkind. rewrite server_onmessage_eq, Hparse.
  destruct message; simpl; try done. by destruct (Hkind props).
Qed.

(** X3.  A target is looked up as it is, with no conversion: a host
    message whose [clientID] is truthy but not a string (a number, [true],
    an array, an object) reaches no guest, whatever the keys of
    [clientConns] are: no socket is sent anything and the room stays as it
    is.  It is dropped with one console line: the line of the unknown
    client when the target can be put into it, and otherwise (an object
    with an own [toString], an array that holds one) the [TypeError] that
    the [catch] writes with [console.error]. *)
Theorem non_string_target_matches_no_guest r data props target :
  JSON_parse data = Some (JSObject props) →
  assoc "clientID" props = Some target →
  ToBoolean (Some target) = true →
  (∀ G, target ≠ JSString G) →
  server_onmessage data r = (Ret tt, r, [unknown_client_line r target])
  ∧ (∀ ws, received ws (effects_of (server_onmessage data r)) = [])
  ∧ (ToString_throws target = false →
     server_onmessage data r
     = (Ret tt, r, [console_log (InRoom (tag r) (UnknownClient target))]))
  ∧ (ToString_throws target = true →
     server_onmessage data r
     = (Ret tt, r, [console_error (InRoom (tag r) (ErrorFromServer TypeError))])).
Proof.
  intros Hparse Hprop Htruthy Hkind.
  assert (server_onmessage data r = (Ret tt, r, [unknown_client_line r target]))
    as ->.
  { rewrite server_onmessage_eq, Hparse. simpl. rewrite Hprop, Htruthy.
    destruct target; try done. by destruct (Hkind s). }
  unfold unknown_client_line, effects_of. simpl. split_and!.
  - done.
  - intros ws. by destruct (ToString_throws target).
  - by intros ->.
  - by intros ->.
Qed.

(** X4.  A guest that joins under an identifier that is not yet a key
    and then closes leaves the room exactly as it was before the join:
    the host slot, the other guests and their order. *)
Theorem guest_join_then_close_restores r G ws :
  JSMap.get (clientConns r) G = None →
  state_of (client_onclose G (state_of (handleClientConn G ws r))) = r.
Proof.
  intros Habsent. rewrite handleClientConn_eq, client_onclose_eq.
  unfold state_of, set_clientConns, JSMap.delete, JSMap.set. simpl.
  rewrite filter_define_prop_absent by done. by destruct r.
Qed.

(** X5.  After the host closed, the room can take a host again: the next
    [handleServerConn] is accepted, and the room it leaves has the new host
    and no guests.  The close of a guest that the host's close evicted then
    changes nothing in the room. *)
Theorem room_can_be_hosted_again r ws :
  handleServerConn ws (state_of (server_onclose r))
  = (Ret (Some ServerHandlers), mkRoom (id r) (Some ws) [],
     [console_log (InRoom (tag r) RegisteredServerConn)])
  ∧ (∀ G, state_of (client_onclose G (state_of (server_onclose r)))
          = state_of (server_onclose r))
  ∧ (∀ G, state_of (client_onclose G
             (state_of (handleServerConn ws (state_of (server_onclose r)))))
          = state_of (handleServerConn ws (state_of (server_onclose r)))).
Proof.
  rewrite server_onclose_eq. unfold state_of. simpl.
  rewrite handleServerConn_eq. simpl. done.
Qed.

(** The elements of an array, read back from its own properties. *)
Lemma assoc_indexed (elems : list JSValue) (n i : nat) :
  assoc (pretty (n + i)) (imap (λ j x, (pretty (n + j), x)) elems) = elems !! i.
Proof.
  revert n i. induction elems as [|x elems IH]; intros n i; [done|].
  rewrite imap_cons. simpl. destruct i as [|i].
  - by rewrite decide_True.
  - rewrite decide_False.
    2: { intros Heq%(inj pretty). lia. }
    replace (n + S i) with (S n + i) by lia.
    change ((x :: elems) !! S i) with (elems !! i).
    rewrite <- (IH (S n) i). f_equal. apply imap_ext. intros j y _. simpl.
    by replace (n + S j) with (S (n + j)) by lia.
Qed.

(** A decimal index is not the reserved key. *)
Lemma pretty_N_go_not_reserved (x : N) (s rest : string) :
  s ≠ String "c" rest → pretty_N_go x s ≠ String "c" rest.
Proof.
  revert s. induction (N.lt_wf_0 x) as [x _ IH]; intros s Hs.
  destruct (decide (x = 0)%N) as [->|Hx]; [by rewrite pretty_N_go_0|].
  rewrite pretty_N_go_step by lia. apply IH; [apply N.div_lt; lia|].
  unfold pretty_N_char. by repeat case_match.
Qed.

Lemma index_not_clientID (i : nat) : pretty i ≠ "clientID".
Proof.
  unfold pretty, pretty_nat, pretty, pretty_N.
  case_decide; [done|]. by apply pretty_N_go_not_reserved.
Qed.

(** X6.  An array sent by a guest reaches the host as an object: each
    element is under its decimal index, the guest's id is under [clientID],
    and [clientID] is the last key. *)
Theorem guest_array_payload_indexed r G data elems host :
  JSON_parse data = Some (JSArray elems) →
  serverConn r = Some host →
  ∃ props,
    client_onmessage G data r
    = (Ret tt, r, [ws_send host (JSON_stringify (JSObject props))])
    ∧ (∀ i, assoc (pretty i) props = elems !! i)
    ∧ assoc "clientID" props = Some (JSString G)
    ∧ props.*1 = (pretty <$> seq 0 (length elems)) ++ ["clientID"].
Proof.
  intros Hparse Hhost. eexists. rewrite client_onmessage_eq, Hparse, Hhost.
  split; [done|]. simpl.
  assert (assoc "clientID" (imap (λ j x, (pretty j, x)) elems) = None) as Hnone.
  { apply assoc_None_not_key. intros Hin.
    apply list_elem_of_fmap in Hin as [[k x] [Hk Hin]]. simpl in Hk. subst k.
    apply list_elem_of_lookup in Hin as [j Hj].
    rewrite list_lookup_imap in Hj.
    destruct (elems !! j); simplify_eq/=. by eapply index_not_clientID. }
  split_and!.
  - intros i. rewrite assoc_define_prop_ne by apply index_not_clientID.
    apply (assoc_indexed elems 0).
  - apply assoc_define_prop_eq.
  - rewrite keys_define_prop, Hnone. f_equal.
    rewrite fmap_imap. by rewrite <- imap_seq_0.
Qed.
End RoomExtras.

(** ** More on the process *)

Section ProcessExtras.
Context `{Platform}.
Implicit Types (s : Server) (r : Room) (ws : WebSocket) (ev : Event)
  (evs : list Event).

Lemma step_message_state s ws data : state_of (step (Message ws data) s) = s.
Proof.
  rewrite step_message_eq.
  destruct (wired s !! ws) as [[this h]|]; [|done].
  destruct (heap s !! this) as [r|] eqn:Hr; [|done].
  unfold state_of at 1. simpl. by rewrite on_message_state, set_heap_id.
Qed.

(** X7.  Routing keeps no state: a message on any socket, with any data,
    leaves the whole state of the process as it is.  It has at most one
    effect, and that effect is never the close of a socket. *)
Theorem message_changes_no_state s ws data :
  state_of (step (Message ws data) s) = s
  ∧ length (effects_of (step (Message ws data) s)) ≤ 1
  ∧ closed (effects_of (step (Message ws data) s)) = [].
Proof.
  rewrite step_message_eq.
  destruct (wired s !! ws) as [[this h]|];
    [|unfold state_of, effects_of; simpl; split_and!; (done || lia)].
  destruct (heap s !! this) as [r|] eqn:Hr;
    [|unfold state_of, effects_of; simpl; split_and!; (done || lia)].
  unfold state_of at 1, effects_of at 1 3. simpl.
  rewrite on_message_state, set_heap_id by done.
  split; [done|]. apply on_message_effects.
Qed.

Lemma on_close_effects h r ws : received ws (effects_of (on_close h r)) = [].
Proof.
  destruct h; simpl; [|done]. rewrite server_onclose_eq.
  unfold effects_of, received. csimpl.
  induction (JSMap.values (clientConns r)) as [|c l IH]; by csimpl.
Qed.

(** X8.  The close of a socket touches one room only, the one its handlers
    close over: every other room, the registry, the handlers on all sockets
    and the count of identifiers stay as they are, no room is added or
    dropped, and nothing is sent to any socket.  Without handlers on the
    socket the close changes nothing at all. *)
Theorem close_touches_one_room s ws :
  rooms (state_of (step (Close ws) s)) = rooms s
  ∧ wired (state_of (step (Close ws) s)) = wired s
  ∧ uuid_calls (state_of (step (Close ws) s)) = uuid_calls s
  ∧ length (heap (state_of (step (Close ws) s))) = length (heap s)
  ∧ (∀ this h other,
       wired s !! ws = Some (this, h) → other ≠ this →
       heap (state_of (step (Close ws) s)) !! other = heap s !! other)
  ∧ (wired s !! ws = None → step (Close ws) s = (Ret None, s, []))
  ∧ (∀ ws', received ws' (effects_of (step (Close ws) s)) = []).
Proof.
  rewrite step_close_eq.
  destruct (wired s !! ws) as [[this h]|] eqn:Hw; [|done].
  destruct (heap s !! this) as [r|] eqn:Hr; [|done].
  unfold state_of at 1 2 3 4 5, effects_of at 1. simpl.
  split_and!; try done.
  - apply length_insert.
  - intros this' h' other [= <- <-] Hother. by apply list_lookup_insert_ne.
  - intros ws'. apply on_close_effects.
Qed.

(** X9.  A request that creates a room is answered with status 200 and
    the identifier just drawn.  The room it registers under that identifier
    has that id, no host and no guests.  Every room that existed stays as
    it was, every other key of the registry keeps its room, and no socket
    gains or loses handlers, is sent anything or is closed. *)
Theorem create_room_adds_empty_room ev s :
  is_create ev = true →
  let roomId := crypto_randomUUID (uuid_calls s) in
  outcome_of (step ev s) = Ret (Some (mkResponse 200 roomId))
  ∧ (∃ this, rooms (state_of (step ev s)) !! roomId = Some this
             ∧ heap (state_of (step ev s)) !! this
               = Some (mkRoom roomId None []))
  ∧ (∀ k, k ≠ roomId → rooms (state_of (step ev s)) !! k = rooms s !! k)
  ∧ (∀ this r, heap s !! this = Some r →
       heap (state_of (step ev s)) !! this = Some r)
  ∧ wired (state_of (step ev s)) = wired s
  ∧ Forall (λ e, is_console e = true) (effects_of (step ev s)).
Proof.
  intros Hc roomId. rewrite step_create by done.
  unfold outcome_of, state_of, effects_of. simpl. split_and!; try done.
  - exists (length (heap s)). rewrite lookup_insert_eq. split; [done|].
    by rewrite lookup_app_r, Nat.sub_diag.
  - intros k Hk. by rewrite lookup_insert_ne.
  - intros this r Hr. by apply lookup_app_l_Some.
  - by repeat constructor.
Qed.

(** X10.  A room object is never dropped and never renamed: after any run
    of events the ids of the rooms constructed before are what they were,
    in the same places, and the rooms constructed in the run come after
    them. *)
Theorem room_ids_never_change evs s :
  (id <$> heap s) `prefix_of` (id <$> heap (fst (run evs s))).
Proof.
  revert s. induction evs as [|ev evs IH]; intros s; [done|].
  rewrite run_cons. simpl. etrans; [|apply IH].
  destruct (is_create ev) eqn:Hc.
  - rewrite step_create by done. unfold state_of. simpl.
    rewrite fmap_app. by apply prefix_app_r.
  - by destruct (step_not_create ev s Hc) as (_ & -> & _).
Qed.

(** X11.  However the process got to its state, the handler of an event
    ends in an exception in two cases only: a request for a socket, with a
    valid role and for a room that exists, that does not ask for the
    upgrade, where [Deno.upgradeWebSocket] throws its [TypeError]; and a
    request to join as the server peer a room whose host slot is taken,
    where the send on the connecting socket throws its
    [InvalidStateError].  Every other request is answered, and the handler
    of a message or of a close always returns. *)
Theorem exceptions_only_at_join evs ev e :
  let s := fst (run evs initial) in
  outcome_of (step ev s) = Throw e ↔
  ∃ roomId role this r,
    roomId ≠ EmptyString
    ∧ rooms s !! roomId = Some this ∧ heap s !! this = Some r
    ∧ ((role = "client" ∨ role = "server")
       ∧ ev = PlainRequest "GET" "/ws" (Some roomId) (Some role)
       ∧ e = TypeError
       ∨ (∃ ws, ev = Request "GET" "/ws" (Some roomId) (Some "server") ws)
         ∧ is_Some (serverConn r) ∧ e = InvalidStateError).
Proof.
  intros s.
  assert (references_ok s) as Hok
    by apply references_ok_run, references_ok_initial.
  destruct (as_request ev) as [[[[[method pathname] roomId] role] upgrade]|]
    eqn:Hreq.
  - rewrite (request_throws ev _ _ _ _ _ s e Hok Hreq). split.
    + intros (-> & -> & key & name & this & r & -> & -> & Hkey & Hroom & Hr
              & Hcase).
      exists key, name, this, r. split_and!; try done.
      destruct Hcase as [(Hname & -> & ->)|(-> & [ws ->] & Hhost & ->)].
      * left. split_and!; try done. by destruct ev; simplify_eq/=.
      * right. split_and!; try done. exists ws. by destruct ev; simplify_eq/=.
    + intros (key & name & this & r & Hkey & Hroom & Hr & Hcase).
      destruct Hcase as [(Hname & -> & ->)|([ws ->] & Hhost & ->)];
        simplify_eq/=; split_and!; try done.
      * exists key, name, this, r. split_and!; try done. by left.
      * exists key, "server", this, r. split_and!; try done.
        right. split_and!; by eauto.
  - rewrite (handler_returns ev s Hok Hreq). split; [done|].
    intros (key & name & this & r & _ & _ & _ & Hcase).
    destruct Hcase as [(_ & -> & _)|([ws ->] & _)]; done.
Qed.

Lemma serve_answer method pathname roomId role upgrade s response :
  outcome_of (serve method pathname roomId role upgrade s) = Ret response →
  (status response = 200
   ∧ bool_decide (method = "POST") && bool_decide (pathname = "/rooms") = true)
  ∨ (status response = 101
     ∧ bool_decide (method = "POST") && bool_decide (pathname = "/rooms") = false)
  ∨ ((status response = 400 ∨ status response = 404)
     ∧ bool_decide (method = "POST") && bool_decide (pathname = "/rooms") = false
     ∧ serve method pathname roomId role upgrade s = (Ret response, s, [])).
Proof.
  unfold serve.
  destruct (bool_decide (method = "POST") && bool_decide (pathname = "/rooms")).
  { rewrite handleCreateRoom_eq. unfold outcome_of. simpl.
    intros [= <-]. by left. }
  destruct (bool_decide (method = "GET") && bool_decide (pathname = "/ws")).
  2: { unfold outcome_of. simpl. intros [= <-]. right. right. simpl. auto. }
  rewrite handleWebSocket_eq.
  repeat case_match; unfold outcome_of; simpl; intros [= <-]; simpl;
    first [ by right; left | by right; right; auto ].
Qed.

Lemma serve_throw method pathname roomId role upgrade s e :
  outcome_of (serve method pathname roomId role upgrade s) = Throw e →
  state_of (serve method pathname roomId role upgrade s) = s
  ∧ Forall (λ e, is_console e = true)
           (effects_of (serve method pathname roomId role upgrade s)).
Proof.
  unfold serve.
  destruct (bool_decide (method = "POST") && bool_decide (pathname = "/rooms")).
  { by rewrite handleCreateRoom_eq. }
  destruct (bool_decide (method = "GET") && bool_decide (pathname = "/ws"));
    [|done].
  rewrite handleWebSocket_eq.
  repeat case_match; unfold outcome_of, state_of, effects_of; simpl; try done;
    intros _; split; by repeat constructor.
Qed.

(** X12.  When the handler of a request returns a response, its status is
    200, 101, 400 or 404, and it is 200 exactly when the request creates a
    room (POST on /rooms).  A request that is refused, with 400 or 404,
    leaves the state of the process as it is and has no effect: nothing is
    written to the console, no identifier is drawn, no socket gets
    handlers.  An event whose handler throws leaves the state of the process
    as it is too, and only writes to the console: so a request changes the
    state only when it is answered 200 or 101. *)
Theorem refused_request_changes_nothing ev s :
  (∀ response,
     outcome_of (step ev s) = Ret (Some response) →
     (status response = 200 ∨ status response = 101
      ∨ status response = 400 ∨ status response = 404)
     ∧ (status response = 200 ↔ is_create ev = true)
     ∧ (status response = 400 ∨ status response = 404 →
        step ev s = (Ret (Some response), s, [])))
  ∧ (∀ e,
       outcome_of (step ev s) = Throw e →
       state_of (step ev s) = s
       ∧ Forall (λ e, is_console e = true) (effects_of (step ev s))).
Proof.
  destruct (as_request ev) as [[[[[method pathname] roomId] role] upgrade]|]
    eqn:Hreq.
  - rewrite (step_as_request _ _ _ _ _ _ _ Hreq),
      (is_create_as_request _ _ _ _ _ _ Hreq).
    destruct (serve method pathname roomId role upgrade s)
      as [[[response'|e'] s'] out] eqn:Hserve; unfold outcome_of; cbn [fst].
    + split; [|done]. intros response [= ->].
      destruct (serve_answer method pathname roomId role upgrade s response)
        as [[Hst Hc]|[[Hst Hc]|(Hst & Hc & Heq)]].
      { by rewrite Hserve. }
      * rewrite Hst, Hc. split_and!; [auto|done|]. by intros [?|?].
      * rewrite Hst, Hc. split_and!; [auto|done|by intros [?|?]].
      * rewrite Heq in Hserve. simplify_eq. rewrite Hc. split_and!.
        -- destruct Hst; auto.
        -- split; [|done]. destruct Hst as [Hst|Hst]; by rewrite Hst.
        -- done.
    + split; [done|]. intros e [= ->].
      destruct (serve_throw method pathname roomId role upgrade s e) as [Hs Hout].
      { by rewrite Hserve. }
      rewrite Hserve in Hs, Hout. done.
  - destruct (as_request_None ev Hreq) as [(ws & data & ->)|(ws & ->)].
    + rewrite step_message_eq.
      repeat case_match; unfold outcome_of, state_of, effects_of; simpl;
        split; try done; intros e _; split; by repeat constructor.
    + rewrite step_close_eq.
      repeat case_match; unfold outcome_of, state_of, effects_of; simpl;
        split; try done; intros e _; split; by repeat constructor.
Qed.

(** X13.  The checks of a request for a socket, in their order.  A
    [room-id] or a [role] that is absent or empty gives 400 and the message
    about missing parameters, whatever else holds.  With both present, a
    role other than [client] and [server] gives 400 and the message about
    the role, whether the room exists or not.  With a valid role, a
    [room-id] that is no key of the registry gives 404 and a message that
    quotes it. *)
Theorem join_refusals s roomId role socket :
  (missing roomId || missing role = true →
   handleWebSocket roomId role socket s
   = (Ret (mkResponse 400 "Missing 'room-id' or 'role' query parameters"),
      s, []))
  ∧ (missing roomId || missing role = false →
     role ≠ Some "client" → role ≠ Some "server" →
     handleWebSocket roomId role socket s
     = (Ret (mkResponse 400 "Role must be 'client' or 'server'"), s, []))
  ∧ (∀ key, roomId = Some key → missing roomId || missing role = false →
       role = Some "client" ∨ role = Some "server" →
       rooms s !! key = None →
       handleWebSocket roomId role socket s
       = (Ret (mkResponse 404 ("Room with ID '" ++ key ++ "' not found")%string),
          s, [])).
Proof.
  rewrite handleWebSocket_eq. split_and!.
  - intros Hmissing. destruct roomId as [key|], role as [name|]; try done.
    by rewrite Hmissing.
  - intros Hmissing Hclient Hserver.
    destruct roomId as [key|], role as [name|];
      try (rewrite ?orb_true_r in Hmissing; done).
    rewrite Hmissing.
    rewrite !bool_decide_true by congruence. done.
  - intros key -> Hmissing Hrole Hroom.
    destruct role as [name|]; [|by destruct Hrole].
    rewrite Hmissing, Hroom.
    destruct Hrole as [[= ->]|[= ->]]; done.
Qed.
(** What a request to join does when the room exists. *)
Lemma step_join_client s roomId this r ws :
  roomId ≠ EmptyString → rooms s !! roomId = Some this →
  heap s !! this = Some r →
  step (Request "GET" "/ws" (Some roomId) (Some "client") ws) s
  = (Ret (Some (mkResponse 101 EmptyString)),
     mkServer
       (<[this := set_clientConns
                    (JSMap.set (crypto_randomUUID (uuid_calls s)) ws
                               (clientConns r)) r]> (heap s))
       (rooms s)
       (<[ws := (this, ClientHandlers (crypto_randomUUID (uuid_calls s)))]>
          (wired s))
       (S (uuid_calls s)),
     [console_log (AddingConn "client" (tag r));
      console_log (InRoom (tag r)
        (RegisteredClientConn (crypto_randomUUID (uuid_calls s))))]).
Proof.
  intros HroomId Hroom Hr. rewrite step_request_eq. unfold serve. simpl.
  rewrite handleWebSocket_eq. destruct roomId as [|c roomId]; [done|]. simpl.
  by rewrite Hroom, Hr.
Qed.

Lemma step_join_server s roomId this r ws :
  roomId ≠ EmptyString → rooms s !! roomId = Some this →
  heap s !! this = Some r → serverConn r = None →
  step (Request "GET" "/ws" (Some roomId) (Some "server") ws) s
  = (Ret (Some (mkResponse 101 EmptyString)),
     mkServer (<[this := set_serverConn (Some ws) r]> (heap s)) (rooms s)
              (<[ws := (this, ServerHandlers)]> (wired s)) (uuid_calls s),
     [console_log (AddingConn "server" (tag r));
      console_log (InRoom (tag r) RegisteredServerConn)]).
Proof.
  intros HroomId Hroom Hr Hhost. rewrite step_request_eq. unfold serve. simpl.
  rewrite handleWebSocket_eq. destruct roomId as [|c roomId]; [done|]. simpl.
  by rewrite Hroom, Hr, Hhost.
Qed.

(** A request to join that does not ask for the upgrade. *)
Lemma step_join_plain s roomId role this :
  roomId ≠ EmptyString → role = "client" ∨ role = "server" →
  rooms s !! roomId = Some this →
  step (PlainRequest "GET" "/ws" (Some roomId) (Some role)) s
  = (Throw TypeError, s, []).
Proof.
  intros HroomId Hrole Hroom.
  rewrite (step_as_request _ "GET" "/ws" (Some roomId) (Some role) None)
    by done.
  unfold serve. simpl. rewrite handleWebSocket_eq.
  destruct roomId as [|c roomId]; [done|].
  destruct Hrole as [->| ->]; simpl; by rewrite Hroom.
Qed.

(** X14.  A request to join an existing room as a guest that asks for the
    upgrade to a socket succeeds, with or without a host in the room: it is
    answered with 101, draws one identifier [G], registers the socket under
    [G] in that room and puts the guest handlers for [G] on the socket.  The
    host slot of the room, the entries of its other guests, every other
    room, the registry and the handlers on every other socket stay as they
    are; nothing is sent and no socket is closed.  The same request without
    the upgrade ends in the [TypeError] of [Deno.upgradeWebSocket]: no
    guest is registered, no identifier is drawn, nothing is written to the
    console. *)
Theorem guest_join_registers s roomId this r ws :
  roomId ≠ EmptyString → rooms s !! roomId = Some this →
  heap s !! this = Some r →
  let join := Request "GET" "/ws" (Some roomId) (Some "client") ws in
  let G := crypto_randomUUID (uuid_calls s) in
  outcome_of (step join s) = Ret (Some (mkResponse 101 EmptyString))
  ∧ (∃ r', heap (state_of (step join s)) !! this = Some r'
           ∧ JSMap.get (clientConns r') G = Some ws
           ∧ (∀ G', G' ≠ G →
                JSMap.get (clientConns r') G' = JSMap.get (clientConns r) G')
           ∧ serverConn r' = serverConn r
           ∧ id r' = id r)
  ∧ (∀ other, other ≠ this →
       heap (state_of (step join s)) !! other = heap s !! other)
  ∧ rooms (state_of (step join s)) = rooms s
  ∧ wired (state_of (step join s)) !! ws = Some (this, ClientHandlers G)
  ∧ (∀ ws', ws' ≠ ws →
       wired (state_of (step join s)) !! ws' = wired s !! ws')
  ∧ uuid_calls (state_of (step join s)) = S (uuid_calls s)
  ∧ Forall (λ e, is_console e = true) (effects_of (step join s))
  ∧ step (PlainRequest "GET" "/ws" (Some roomId) (Some "client")) s
    = (Throw TypeError, s, []).
Proof.
  intros HroomId Hroom Hr join G. unfold join.
  rewrite (step_join_client s roomId this r ws) by done.
  unfold outcome_of, state_of, effects_of. simpl. split_and!; try done.
  - eexists. split.
    { apply list_lookup_insert_eq. by eapply lookup_lt_Some. }
    simpl. split_and!; [apply get_set_eq| |done|done].
    intros G' HG'. by apply get_set_ne.
  - intros other Hother. by apply list_lookup_insert_ne.
  - by rewrite lookup_insert_eq.
  - intros ws' Hws'. by rewrite lookup_insert_ne.
  - by repeat constructor.
  - apply (step_join_plain s roomId "client" this); auto.
Qed.

(** X15.  A request to join as the host a room whose host slot is empty,
    that asks for the upgrade to a socket, is answered with 101, puts the
    socket in the slot and the host handlers on the socket, and draws no
    identifier.  The guests that joined before stay registered, and every
    other room stays as it is.  The same request without the upgrade ends
    in the [TypeError] of [Deno.upgradeWebSocket]: the slot stays empty
    and nothing is written to the console. *)
Theorem host_join_registers s roomId this r ws :
  roomId ≠ EmptyString → rooms s !! roomId = Some this →
  heap s !! this = Some r → serverConn r = None →
  let join := Request "GET" "/ws" (Some roomId) (Some "server") ws in
  outcome_of (step join s) = Ret (Some (mkResponse 101 EmptyString))
  ∧ heap (state_of (step join s)) !! this
    = Some (mkRoom (id r) (Some ws) (clientConns r))
  ∧ (∀ other, other ≠ this →
       heap (state_of (step join s)) !! other = heap s !! other)
  ∧ rooms (state_of (step join s)) = rooms s
  ∧ wired (state_of (step join s)) !! ws = Some (this, ServerHandlers)
  ∧ (∀ ws', ws' ≠ ws →
       wired (state_of (step join s)) !! ws' = wired s !! ws')
  ∧ uuid_calls (state_of (step join s)) = uuid_calls s
  ∧ Forall (λ e, is_console e = true) (effects_of (step join s))
  ∧ step (PlainRequest "GET" "/ws" (Some roomId) (Some "server")) s
    = (Throw TypeError, s, []).
Proof.
  intros HroomId Hroom Hr Hhost join. unfold join.
  rewrite (step_join_server s roomId this r ws) by done.
  unfold outcome_of, state_of, effects_of. simpl. split_and!; try done.
  - apply list_lookup_insert_eq. by eapply lookup_lt_Some.
  - intros other Hother. by apply list_lookup_insert_ne.
  - by rewrite lookup_insert_eq.
  - intros ws' Hws'. by rewrite lookup_insert_ne.
  - by repeat constructor.
  - apply (step_join_plain s roomId "server" this); auto.
Qed.

(** X16.  From the join to the host: once a guest has joined a room that
    has a host, a message on the guest's socket that [JSON.parse] accepts is
    sent to the host, once, as the parsed message with the identifier the
    guest was given at the join; the state of the process stays as it is. *)
Theorem joined_guest_reaches_host s roomId this r host ws data message :
  roomId ≠ EmptyString → rooms s !! roomId = Some this →
  heap s !! this = Some r → serverConn r = Some host →
  JSON_parse data = Some message →
  let joined :=
    state_of (step (Request "GET" "/ws" (Some roomId) (Some "client") ws) s) in
  step (Message ws data) joined
  = (Ret None, joined,
     [ws_send host
        (JSON_stringify
           (with_clientID message (crypto_randomUUID (uuid_calls s))))]).
Proof.
  intros HroomId Hroom Hr Hhost Hparse joined. unfold joined.
  rewrite (step_join_client s roomId this r ws) by done.
  unfold state_of at 1 2. cbn [fst snd].
  erewrite step_message_wired.
  2: { simpl. apply lookup_insert_eq. }
  2: { simpl. apply list_lookup_insert_eq. by eapply lookup_lt_Some. }
  simpl. rewrite client_onmessage_eq, Hparse. simpl. rewrite Hhost.
  unfold state_of, effects_of, set_heap. simpl.
  by rewrite list_insert_insert_eq.
Qed.

(** X17.  From the host to a guest that joined: a host message that
    [JSON.parse] accepts and whose [clientID] is the identifier the guest
    was given at the join is sent to the guest's socket, once, as the text
    of the parsed message; the state of the process stays as it is.  (An
    identifier is not the empty string.) *)
Theorem host_reaches_joined_guest s roomId this r hostWs ws data message :
  roomId ≠ EmptyString → rooms s !! roomId = Some this →
  heap s !! this = Some r →
  wired s !! hostWs = Some (this, ServerHandlers) → hostWs ≠ ws →
  crypto_randomUUID (uuid_calls s) ≠ EmptyString →
  JSON_parse data = Some message →
  read_clientID message
  = Ret (Some (JSString (crypto_randomUUID (uuid_calls s)))) →
  let joined :=
    state_of (step (Request "GET" "/ws" (Some roomId) (Some "client") ws) s) in
  step (Message hostWs data) joined
  = (Ret None, joined, [ws_send ws (JSON_stringify message)]).
Proof.
  intros HroomId Hroom Hr Hwired Hne HG Hparse Hread joined. unfold joined.
  rewrite (step_join_client s roomId this r ws) by done.
  unfold state_of at 1 2. cbn [fst snd].
  erewrite step_message_wired.
  2: { simpl. rewrite lookup_insert_ne by done. exact Hwired. }
  2: { simpl. apply list_lookup_insert_eq. by eapply lookup_lt_Some. }
  simpl. rewrite server_onmessage_eq, Hparse, Hread.
  assert (ToBoolean (Some (JSString (crypto_randomUUID (uuid_calls s)))) = true)
    as -> by by destruct (crypto_randomUUID (uuid_calls s)).
  change (JSMap.get_value ?m (JSString ?k)) with (JSMap.get m k).
  simpl. rewrite get_set_eq.
  unfold state_of, effects_of, set_heap. simpl.
  by rewrite list_insert_insert_eq.
Qed.
(** *** The identifiers of guests *)

(** Where a key of [clientConns] comes from: it was a key of the same room
    before the event, or it is the identifier the event drew. *)
Lemma step_guest_origin ev s this r' G :
  heap (state_of (step ev s)) !! this = Some r' →
  is_Some (JSMap.get (clientConns r') G) →
  (∃ r, heap s !! this = Some r ∧ is_Some (JSMap.get (clientConns r) G))
  ∨ (G = crypto_randomUUID (uuid_calls s)
     ∧ uuid_calls (state_of (step ev s)) = S (uuid_calls s)).
Proof.
  destruct (as_request ev) as [[[[[method pathname] roomId] role] upgrade]|]
    eqn:Hreq.
  - rewrite (state_as_request _ _ _ _ _ _ _ Hreq). unfold serve.
    destruct (bool_decide (method = "POST") && bool_decide (pathname = "/rooms")).
    { rewrite handleCreateRoom_eq. unfold state_of. simpl.
      intros Hr' HG. left. apply lookup_app_Some in Hr' as [Hr'|[_ Hr']].
      - by exists r'.
      - destruct (this - length (heap s)); simplify_eq/=. by destruct HG. }
    destruct (bool_decide (method = "GET") && bool_decide (pathname = "/ws"));
      [|intros; left; by eexists].
    rewrite handleWebSocket_eq.
    repeat case_match; unfold state_of; simpl;
      try (intros; left; by eexists).
    + intros Hr' HG.
      match goal with
      | Hheap : heap s !! ?n = Some ?r0 |- _ =>
          destruct (decide (this = n)) as [->|Hthis];
          [rewrite list_lookup_insert_eq in Hr' by (by eapply lookup_lt_Some);
           simplify_eq/=;
           destruct (decide (G = crypto_randomUUID (uuid_calls s))) as [->|HG'];
           [by right|left; exists r0; split; [done|];
                     by rewrite get_set_ne in HG]
          |rewrite list_lookup_insert_ne in Hr' by done; left; by eexists]
      end.
    + intros Hr' HG. left.
      match goal with
      | Hheap : heap s !! ?n = Some ?r0 |- _ =>
          destruct (decide (this = n)) as [->|Hthis];
          [rewrite list_lookup_insert_eq in Hr' by (by eapply lookup_lt_Some);
           simplify_eq/=; by exists r0
          |rewrite list_lookup_insert_ne in Hr' by done; by eexists]
      end.
  - destruct (as_request_None ev Hreq) as [(ws & data & ->)|(ws & ->)].
    { rewrite step_message_state. intros; left; by eexists. }
    rewrite step_close_eq.
    destruct (wired s !! ws) as [[this0 h]|]; [|intros; left; by eexists].
    destruct (heap s !! this0) as [r0|] eqn:Hr0; [|intros; left; by eexists].
    unfold state_of at 1. simpl. intros Hr' HG. left.
    destruct (decide (this = this0)) as [->|Hthis].
    + rewrite list_lookup_insert_eq in Hr' by (by eapply lookup_lt_Some).
      simplify_eq/=. exists r0. split; [done|]. destruct h; simpl in HG.
      * rewrite server_onclose_eq in HG. by destruct HG.
      * unfold state_of in HG. simpl in HG.
        destruct (decide (G = clientId)) as [->|HG'].
        { rewrite get_delete_eq in HG. by destruct HG. }
        by rewrite get_delete_ne in HG.
    + rewrite list_lookup_insert_ne in Hr' by done. by eexists.
Qed.

Lemma guests_drawn_initial : guests_drawn initial.
Proof. intros this r G Hr. simpl in Hr. by destruct this. Qed.

Lemma guests_drawn_step ev s : guests_drawn s → guests_drawn (state_of (step ev s)).
Proof.
  intros Hs this r' G Hr' HG.
  pose proof (step_uuid_calls_mono ev s) as Hmono.
  destruct (step_guest_origin ev s this r' G Hr' HG) as [(r & Hr & HG')|[-> Hnew]].
  - destruct (Hs this r G Hr HG') as (i & Hi & ->). exists i. split; [lia|done].
  - exists (uuid_calls s). split; [lia|done].
Qed.

Lemma guests_drawn_run evs s : guests_drawn s → guests_drawn (fst (run evs s)).
Proof.
  revert s. induction evs as [|ev evs IH]; intros s Hs; [done|].
  rewrite run_cons. simpl. by apply IH, guests_drawn_step.
Qed.

Lemma drawn_fresh (total n i : nat) :
  NoDup (crypto_randomUUID <$> seq 0 total) → n < total → i < n →
  crypto_randomUUID n ≠ crypto_randomUUID i.
Proof.
  intros Hfresh Hn Hi Heq. rewrite NoDup_alt in Hfresh.
  assert (n = i); [|lia].
  eapply Hfresh; rewrite list_lookup_fmap.
  - by rewrite lookup_seq_lt by done.
  - rewrite lookup_seq_lt by lia. simpl. by rewrite Heq.
Qed.

(** X18.  Take any run of the process from its start in which
    [crypto.randomUUID] returns no value twice, and in it a request to join
    an existing room as a guest.  The identifier the guest is given is, at
    that moment, the identifier of no guest of any room and of no room; and
    the join displaces nobody: every guest of every room is registered
    after it as before, with the same socket. *)
Theorem guest_ids_fresh evs1 evs2 roomId ws :
  let join := Request "GET" "/ws" (Some roomId) (Some "client") ws in
  let before := fst (run evs1 initial) in
  let G := crypto_randomUUID (uuid_calls before) in
  NoDup (crypto_randomUUID <$>
           seq 0 (uuid_calls (fst (run (evs1 ++ join :: evs2) initial)))) →
  roomId ≠ EmptyString →
  is_Some (rooms before !! roomId) →
  (∃ this, wired (state_of (step join before)) !! ws
           = Some (this, ClientHandlers G))
  ∧ (∀ this r, heap before !! this = Some r →
       JSMap.get (clientConns r) G = None)
  ∧ rooms before !! G = None
  ∧ (∀ this r G' ws',
       heap before !! this = Some r →
       JSMap.get (clientConns r) G' = Some ws' →
       ∃ r', heap (state_of (step join before)) !! this = Some r'
             ∧ JSMap.get (clientConns r') G' = Some ws').
Proof.
  intros join before G Hfresh HroomId [this Hroom].
  destruct (references_ok_run evs1 initial references_ok_initial) as [Hrefs _].
  destruct (Hrefs roomId this Hroom) as [r Hr]. fold before in Hr.
  pose proof (step_join_client before roomId this r ws HroomId Hroom Hr)
    as Hstep.
  fold join G in Hstep.
  assert (uuid_calls (state_of (step join before)) = S (uuid_calls before))
    as Hcalls by by rewrite Hstep.
  assert (uuid_calls before
          < uuid_calls (fst (run (evs1 ++ join :: evs2) initial))) as Hlt.
  { rewrite run_app. fold before. rewrite run_cons. cbn [fst].
    eapply Nat.lt_le_trans; [|apply run_uuid_calls_mono]. rewrite Hcalls. lia. }
  assert (∀ this0 r0, heap before !! this0 = Some r0 →
                      JSMap.get (clientConns r0) G = None) as Hnobody.
  { intros this0 r0 Hr0.
    destruct (JSMap.get (clientConns r0) G) as [ws0|] eqn:Hget; [|done].
    destruct (guests_drawn_run evs1 initial guests_drawn_initial this0 r0 G)
      as (i & Hi & Heq); [done|by eexists|].
    fold before in Hi. by destruct (drawn_fresh _ _ i Hfresh Hlt Hi). }
  split_and!.
  - exists this. rewrite Hstep. unfold state_of. simpl. apply lookup_insert_eq.
  - exact Hnobody.
  - destruct (rooms before !! G) as [this0|] eqn:HG; [|done].
    destruct (registry_ok_run evs1 initial registry_ok_initial) as [_ Hkeys].
    destruct (Hkeys G) as (i & Hi & Heq); [by eexists|].
    fold before in Hi. by destruct (drawn_fresh _ _ i Hfresh Hlt Hi).
  - intros this0 r0 G' ws' Hr0 Hget.
    rewrite Hstep. unfold state_of. simpl.
    destruct (decide (this0 = this)) as [->|Hthis].
    + eexists. split.
      { apply list_lookup_insert_eq. by eapply lookup_lt_Some. }
      simplify_eq. simpl. rewrite get_set_ne; [done|].
      intros ->. specialize (Hnobody _ _ Hr). congruence.
    + exists r0. split; [|done]. by rewrite list_lookup_insert_ne.
Qed.
End ProcessExtras.

(** ** The relay at work on the sample platform *)

Import Sample.
Local Existing Instance Sample.platform.

Example started_heap : heap started = [room_of_three].
Proof. reflexivity. Qed.

(** The routing of the two messages of the specification's tests. *)
Example guest_to_host :
  client_onmessage (uuid 1) (stringify (JSObject [("foo", JSNumber one)]))
    room_of_three
  = (Ret tt, room_of_three,
     [ws_send 10 (stringify (JSObject [("foo", JSNumber one);
                                       ("clientID", JSString (uuid 1))]))]).
Proof. reflexivity. Qed.

Example host_to_guest :
  server_onmessage
    (stringify (JSObject [("foo", JSNumber two); ("clientID", JSString (uuid 2))]))
    room_of_three
  = (Ret tt, room_of_three,
     [ws_send 12 (stringify (JSObject [("foo", JSNumber two);
                                       ("clientID", JSString (uuid 2))]))]).
Proof. reflexivity. Qed.

(** The rejection of a second host, on socket 13, in the room of three:
    the rejection is written to the console, and then the send throws;
    socket 13 is sent nothing and is not closed. *)
Example second_host_is_not_notified :
  handleServerConn 13 room_of_three
  = (Throw InvalidStateError, room_of_three,
     [console_log (InRoom (tag room_of_three) RejectedServerConn)]).
Proof. reflexivity. Qed.

(** C1 at work: guest 1 writes the id of guest 2 into its message; the
    host gets the message under the id of guest 1. *)
Lemma guest_message_reaches_host_only_witness :
  let data := stringify (JSObject [("clientID", JSString (uuid 2));
                                    ("foo", JSNumber one)]) in
  let message := JSObject [("clientID", JSString (uuid 2));
                           ("foo", JSNumber one)] in
  JSON_parse data = Some message
  ∧ serverConn room_of_three = Some 10
  ∧ client_onmessage (uuid 1) data room_of_three
    = (Ret tt, room_of_three,
       [ws_send 10 (stringify (JSObject [("clientID", JSString (uuid 1));
                                         ("foo", JSNumber one)]))]).
Proof.
  intros data message. split; [reflexivity|]. split; [reflexivity|].
  exact (proj1 (guest_message_reaches_host_only room_of_three (uuid 1) data
                  message 10 eq_refl eq_refl)).
Defined.

(** C1 as it is stated does not hold of a payload that is not an object.
    A guest sends the text [5]; it parses, to the number 5.  The host is
    sent an object with the one member [clientID]: the number is not in
    it (without its [clientID] the envelope is the empty object), and the
    text [{}] from the same guest gives the host the very same envelope. *)
Lemma guest_number_payload_lost :
  let data := stringify (JSNumber five) in
  let envelope := JSObject [("clientID", JSString (uuid 1))] in
  JSON_parse data = Some (JSNumber five)
  ∧ serverConn room_of_three = Some 10
  ∧ client_onmessage (uuid 1) data room_of_three
    = (Ret tt, room_of_three, [ws_send 10 (JSON_stringify envelope)])
  ∧ without_clientID envelope = JSObject []
  ∧ without_clientID envelope ≠ JSNumber five
  ∧ client_onmessage (uuid 1) data room_of_three
    = client_onmessage (uuid 1) (stringify (JSObject [])) room_of_three.
Proof. intros data envelope. split_and!; done. Qed.

(** C2 at work, for a target that is attached and for one that is not. *)
Lemma host_message_routed_to_target_witness :
  let message := JSObject [("foo", JSNumber two);
                           ("clientID", JSString (uuid 2))] in
  let data := stringify message in
  JSON_parse data = Some message
  ∧ read_clientID message = Ret (Some (JSString (uuid 2)))
  ∧ uuid 2 ≠ EmptyString
  ∧ JSMap.get (clientConns room_of_three) (uuid 2) = Some 12
  ∧ JSMap.get_value [(uuid 1, 11)] (JSString (uuid 2)) = None
  ∧ server_onmessage data room_of_three
    = (Ret tt, room_of_three, [ws_send 12 (JSON_stringify message)])
  ∧ received 10 (effects_of (server_onmessage data
       (mkRoom (uuid 0) (Some 10) [(uuid 1, 11)]))) = [].
Proof.
  intros message data.
  assert (uuid 2 ≠ EmptyString) as Hne by discriminate.
  assert (JSON_parse data = Some message) as Hparse by reflexivity.
  destruct (host_message_routed_to_target room_of_three data message Hparse)
    as [Hfound _].
  destruct (host_message_routed_to_target
              (mkRoom (uuid 0) (Some 10) [(uuid 1, 11)]) data message Hparse)
    as [_ Hunknown].
  split_and!; [reflexivity|reflexivity|exact Hne|reflexivity|reflexivity| |].
  - exact (proj1 (Hfound (uuid 2) 12 eq_refl Hne eq_refl)).
  - exact (proj2 (proj2 (proj2 (Hunknown (JSString (uuid 2)) eq_refl eq_refl))) 10).
Defined.

(** C4 at work: both guests of the room are closed. *)
Lemma server_onclose_evicts_all_witness :
  JSMap.get (clientConns room_of_three) (uuid 2) = Some 12
  ∧ ws_close 12 ∈ effects_of (server_onclose room_of_three)
  ∧ closed (effects_of (server_onclose room_of_three)) = [11; 12].
Proof.
  split; [reflexivity|].
  destruct (server_onclose_evicts_all room_of_three) as (_ & _ & Hall & Hone & _).
  split; [exact (Hone (uuid 2) 12 eq_refl) | exact Hall].
Defined.

(** C5 as it is stated does not hold of a host message without a target:
    the text of an object with the one member [foo], sent by the host,
    parses, has no [clientID], and is dropped with no console line at
    all. *)
Lemma missing_target_not_logged :
  let message := JSObject [("foo", JSNumber one)] in
  let data := stringify message in
  JSON_parse data = Some message
  ∧ read_clientID message = Ret None
  ∧ server_onmessage data room_of_three = (Ret tt, room_of_three, [])
  ∧ ¬ Exists (λ e, is_console e = true)
        (effects_of (server_onmessage data room_of_three)).
Proof.
  intros message data. split_and!; try done.
  intros Hlogged. by apply Exists_nil in Hlogged.
Qed.

(** C5 at work, one message for each of the three conditions, and a
    target that cannot be put into the line of the unknown client. *)
Lemma unroutable_message_dropped_witness :
  let unprintable := JSObject [("toString", JSNumber one)] in
  server_onmessage (stringify (JSObject [("clientID", JSNumber zero)]))
    room_of_three = (Ret tt, room_of_three, [])
  ∧ server_onmessage (stringify (JSObject [("clientID", JSNumber five)]))
      room_of_three
    = (Ret tt, room_of_three,
       [console_log (InRoom (tag room_of_three) (UnknownClient (JSNumber five)))])
  ∧ server_onmessage (stringify (JSObject [("clientID", unprintable)]))
      room_of_three
    = (Ret tt, room_of_three,
       [console_error (InRoom (tag room_of_three) (ErrorFromServer TypeError))])
  ∧ client_onmessage (uuid 1) (stringify (JSObject [("foo", JSNumber one)]))
      room_without_host
    = (Ret tt, room_without_host,
       [console_log (InRoom (tag room_without_host)
                            (NoServerConnection (uuid 1)))]).
Proof.
  intros unprintable. split_and!.
  - exact (proj1 (unroutable_message_dropped room_of_three)
             (stringify (JSObject [("clientID", JSNumber zero)]))
             (JSObject [("clientID", JSNumber zero)]) (Some (JSNumber zero))
             eq_refl eq_refl eq_refl).
  - exact (proj1 (proj1 (proj2 (unroutable_message_dropped room_of_three))
             (stringify (JSObject [("clientID", JSNumber five)]))
             (JSObject [("clientID", JSNumber five)]) (JSNumber five)
             eq_refl eq_refl eq_refl eq_refl)).
  - exact (proj1 (proj1 (proj2 (unroutable_message_dropped room_of_three))
             (stringify (JSObject [("clientID", unprintable)]))
             (JSObject [("clientID", unprintable)]) unprintable
             eq_refl eq_refl eq_refl eq_refl)).
  - exact (proj2 (proj2 (unroutable_message_dropped room_without_host))
             (uuid 1) (stringify (JSObject [("foo", JSNumber one)]))
             (JSObject [("foo", JSNumber one)]) eq_refl eq_refl).
Defined.

(** C6 at work: three rooms are created, between them a host and two
    guests join the first. *)
Lemma created_room_ids_distinct_and_kept_witness :
  let evs := session ++ [create_room; create_room] in
  NoDup (crypto_randomUUID <$> seq 0 (uuid_calls (fst (run evs initial))))
  ∧ NoDup (created evs initial)
  ∧ length (created evs initial) = 3.
Proof.
  intros evs.
  assert (NoDup (crypto_randomUUID <$> seq 0 (uuid_calls (fst (run evs initial)))))
    as Hfresh.
  { apply (bool_decide_unpack _). vm_compute. exact I. }
  split; [exact Hfresh|].
  destruct (created_room_ids_distinct_and_kept evs Hfresh) as (Hdistinct & Hlen & _).
  split; [exact Hdistinct | exact Hlen].
Defined.

(** C7 at work: guest 1 sends text that is no JSON. *)
Lemma unparsable_message_dropped_witness :
  wired started !! 11 = Some (0, ClientHandlers (uuid 1))
  ∧ heap started !! 0 = Some room_of_three
  ∧ JSON_parse "not json" = None
  ∧ step (Message 11 "not json") started
    = (Ret None, started,
       [console_error (InRoom (tag room_of_three)
                              (ErrorFromClient (uuid 1) SyntaxError))]).
Proof.
  split_and!; [reflexivity..|].
  exact (proj1 (unparsable_message_dropped started 11 0 (ClientHandlers (uuid 1))
                  room_of_three "not json" eq_refl eq_refl eq_refl)).
Defined.

(** C8 at work: guest 1 closes; guest 2 stays. *)
Lemma client_onclose_idempotent_isolated_witness :
  uuid 2 ≠ uuid 1
  ∧ JSMap.get (clientConns (state_of (client_onclose (uuid 1) room_of_three)))
      (uuid 2)
    = Some 12
  ∧ state_of (client_onclose (uuid 3) room_of_three) = room_of_three.
Proof.
  assert (uuid 2 ≠ uuid 1) as Hne by discriminate.
  destruct (client_onclose_idempotent_isolated room_of_three (uuid 1))
    as (_ & _ & _ & _ & Hother & _).
  destruct (client_onclose_idempotent_isolated room_of_three (uuid 3))
    as (_ & _ & _ & _ & _ & Habsent & _).
  split_and!; [exact Hne | exact (Hother (uuid 2) Hne) | exact (Habsent eq_refl)].
Defined.

(** C9 at work: the host addresses the empty string. *)
Lemma falsy_target_like_absent_witness :
  let message := JSObject [("clientID", JSString EmptyString)] in
  JSON_parse (stringify message) = Some message
  ∧ assoc "clientID" [("clientID", JSString EmptyString)]
    = Some (JSString EmptyString)
  ∧ server_onmessage (stringify message) room_of_three
    = (Ret tt, room_of_three, []).
Proof.
  intros message. split_and!; [reflexivity..|].
  exact (proj1 (falsy_target_like_absent room_of_three (stringify message)
                  [("clientID", JSString EmptyString)] (JSString EmptyString)
                  eq_refl eq_refl (or_introl eq_refl))).
Defined.

(** C10 at work: a second host, on socket 13, is turned away, by an
    exception; what it sends and its close change nothing. *)
Lemma rejected_server_conn_inert_witness :
  let evs := [Message 13 (stringify (JSObject [("foo", JSNumber two);
                                               ("clientID", JSString (uuid 2))]));
              Message 11 (stringify (JSObject [("foo", JSNumber one)]));
              Close 13] in
  uuid 0 ≠ EmptyString
  ∧ rooms started !! uuid 0 = Some 0
  ∧ heap started !! 0 = Some room_of_three
  ∧ serverConn room_of_three = Some 10
  ∧ wired started !! 13 = None
  ∧ Forall (λ ev, upgrades 13 ev = false) evs
  ∧ step (join (uuid 0) "server" 13) started
    = (Throw InvalidStateError, started,
       [console_log (AddingConn "server" (tag room_of_three));
        console_log (InRoom (tag room_of_three) RejectedServerConn)])
  ∧ step (Close 13)
      (fst (run evs (state_of (step (join (uuid 0) "server" 13) started))))
    = (Ret None,
       fst (run evs (state_of (step (join (uuid 0) "server" 13) started))), []).
Proof.
  intros evs.
  assert (uuid 0 ≠ EmptyString) as Hne by discriminate.
  assert (Forall (λ ev, upgrades 13 ev = false) evs) as Hevs
    by (repeat constructor).
  destruct (rejected_server_conn_inert started (uuid 0) 0 room_of_three 10 13 evs
              Hne eq_refl eq_refl eq_refl eq_refl Hevs)
    as (Hstep & _ & _ & Hdeaf).
  split_and!; [exact Hne|reflexivity..|exact Hevs|exact Hstep|
               exact (Hdeaf (Close 13) eq_refl)].
Defined.

(** X1 at work: what the host and a guest send in the room of three. *)
Lemma messages_stay_in_room_witness :
  let to_guest := JSObject [("foo", JSNumber two);
                            ("clientID", JSString (uuid 2))] in
  ws_send 12 (stringify to_guest)
    ∈ effects_of (server_onmessage (stringify to_guest) room_of_three)
  ∧ 12 ∈ JSMap.values (clientConns room_of_three)
  ∧ ws_send 10 (stringify (JSObject [("clientID", JSString (uuid 1))]))
      ∈ effects_of (client_onmessage (uuid 1) (stringify (JSObject []))
                      room_of_three)
  ∧ serverConn room_of_three = Some 10.
Proof.
  intros to_guest.
  assert (ws_send 12 (stringify to_guest)
            ∈ effects_of (server_onmessage (stringify to_guest) room_of_three))
    as Hhost by (vm_compute; apply list_elem_of_here).
  assert (ws_send 10 (stringify (JSObject [("clientID", JSString (uuid 1))]))
            ∈ effects_of (client_onmessage (uuid 1) (stringify (JSObject []))
                            room_of_three))
    as Hguest by (vm_compute; apply list_elem_of_here).
  split_and!; [exact Hhost| |exact Hguest|].
  - exact (proj1 (proj1 (messages_stay_in_room room_of_three
                           (stringify to_guest) 12 (stringify to_guest)) Hhost)).
  - exact (proj1 (proj2 (messages_stay_in_room room_of_three
                           (stringify (JSObject [])) 10
                           (stringify (JSObject [("clientID",
                                                  JSString (uuid 1))])))
                    (uuid 1) Hguest)).
Defined.

(** X2 at work: the host sends the text of a number. *)
Lemma host_non_object_never_routed_witness :
  JSON_parse (stringify (JSNumber five)) = Some (JSNumber five)
  ∧ (∀ props, JSNumber five ≠ JSObject props)
  ∧ server_onmessage (stringify (JSNumber five)) room_of_three
    = (Ret tt, room_of_three, []).
Proof.
  assert (∀ props, JSNumber five ≠ JSObject props) as Hkind by discriminate.
  split_and!; [reflexivity|exact Hkind|].
  exact (proj1 (host_non_object_never_routed room_of_three
                  (stringify (JSNumber five)) (JSNumber five) eq_refl Hkind)).
Defined.

(** X3 at work: the host addresses the number 5, and an object with an
    own [toString]. *)
Lemma non_string_target_matches_no_guest_witness :
  let message := JSObject [("clientID", JSNumber five)] in
  let unprintable := JSObject [("toString", JSNumber one)] in
  JSON_parse (stringify message) = Some message
  ∧ ToBoolean (Some (JSNumber five)) = true
  ∧ (∀ G, JSNumber five ≠ JSString G)
  ∧ server_onmessage (stringify message) room_of_three
    = (Ret tt, room_of_three,
       [console_log (InRoom (tag room_of_three) (UnknownClient (JSNumber five)))])
  ∧ server_onmessage (stringify (JSObject [("clientID", unprintable)]))
      room_of_three
    = (Ret tt, room_of_three,
       [console_error (InRoom (tag room_of_three) (ErrorFromServer TypeError))]).
Proof.
  intros message unprintable.
  assert (∀ G, JSNumber five ≠ JSString G) as Hkind by discriminate.
  assert (∀ G, unprintable ≠ JSString G) as Hkind' by discriminate.
  split_and!; [reflexivity|reflexivity|exact Hkind| |].
  - exact (proj1 (non_string_target_matches_no_guest room_of_three
                    (stringify message) [("clientID", JSNumber five)]
                    (JSNumber five) eq_refl eq_refl eq_refl Hkind)).
  - exact (proj1 (non_string_target_matches_no_guest room_of_three
                    (stringify (JSObject [("clientID", unprintable)]))
                    [("clientID", unprintable)] unprintable
                    eq_refl eq_refl eq_refl Hkind')).
Defined.

(** X4 at work: a third guest joins the room of three and leaves. *)
Lemma guest_join_then_close_restores_witness :
  JSMap.get (clientConns room_of_three) (uuid 3) = None
  ∧ state_of (client_onclose (uuid 3)
                (state_of (handleClientConn (uuid 3) 13 room_of_three)))
    = room_of_three.
Proof.
  split; [reflexivity|].
  exact (guest_join_then_close_restores room_of_three (uuid 3) 13 eq_refl).
Defined.

(** X6 at work: guest 1 sends the array of 1 and 2. *)
Lemma guest_array_payload_indexed_witness :
  let data := stringify (JSArray [JSNumber one; JSNumber two]) in
  JSON_parse data = Some (JSArray [JSNumber one; JSNumber two])
  ∧ serverConn room_of_three = Some 10
  ∧ ∃ props,
      client_onmessage (uuid 1) data room_of_three
      = (Ret tt, room_of_three, [ws_send 10 (JSON_stringify (JSObject props))])
      ∧ assoc "1" props = Some (JSNumber two).
Proof.
  intros data.
  assert (JSON_parse data = Some (JSArray [JSNumber one; JSNumber two]))
    as Hparse by reflexivity.
  assert (serverConn room_of_three = Some 10) as Hhost by reflexivity.
  split; [exact Hparse|]. split; [exact Hhost|].
  destruct (guest_array_payload_indexed room_of_three (uuid 1) data
              [JSNumber one; JSNumber two] 10 Hparse Hhost)
    as (props & Hsent & Hread & _).
  exists props. split; [exact Hsent|exact (Hread 1)].
Defined.

(** X8 at work: the host of the first of two rooms closes. *)
Lemma close_touches_one_room_witness :
  wired two_rooms !! 10 = Some (0, ServerHandlers)
  ∧ 1 ≠ 0
  ∧ heap (state_of (step (Close 10) two_rooms)) !! 1 = heap two_rooms !! 1
  ∧ wired two_rooms !! 13 = None
  ∧ step (Close 13) two_rooms = (Ret None, two_rooms, []).
Proof.
  assert (1 ≠ 0) as Hne by discriminate.
  destruct (close_touches_one_room two_rooms 10) as (_ & _ & _ & _ & Hother & _).
  destruct (close_touches_one_room two_rooms 13) as (_ & _ & _ & _ & _ & Hdeaf & _).
  split_and!; [reflexivity|exact Hne| |reflexivity|exact (Hdeaf eq_refl)].
  exact (Hother 0 ServerHandlers 1 eq_refl Hne).
Defined.

(** X9 at work: a second room is created. *)
Lemma create_room_adds_empty_room_witness :
  is_create create_room = true
  ∧ outcome_of (step create_room started)
    = Ret (Some (mkResponse 200 (uuid 3)))
  ∧ wired (state_of (step create_room started)) = wired started.
Proof.
  assert (is_create create_room = true) as Hcreate by reflexivity.
  destruct (create_room_adds_empty_room create_room started Hcreate)
    as (Hanswer & _ & _ & _ & Hwired & _).
  split_and!; [reflexivity|exact Hanswer|exact Hwired].
Defined.

(** X12 at work: a request to join with a role that does not exist, and a
    request to join that does not ask for the upgrade. *)
Lemma refused_request_changes_nothing_witness :
  let request := Request "GET" "/ws" (Some (uuid 0)) (Some "admin") 13 in
  let plain := PlainRequest "GET" "/ws" (Some (uuid 0)) (Some "client") in
  let response := mkResponse 400 "Role must be 'client' or 'server'" in
  outcome_of (step request started) = Ret (Some response)
  ∧ step request started = (Ret (Some response), started, [])
  ∧ outcome_of (step plain started) = Throw TypeError
  ∧ state_of (step plain started) = started.
Proof.
  intros request plain response.
  assert (outcome_of (step request started) = Ret (Some response)) as Hanswer
    by reflexivity.
  assert (outcome_of (step plain started) = Throw TypeError) as Hthrow
    by reflexivity.
  split_and!; [exact Hanswer| |exact Hthrow|].
  - exact (proj2 (proj2 (proj1 (refused_request_changes_nothing request started)
                           response Hanswer))
             (or_introl eq_refl)).
  - exact (proj1 (proj2 (refused_request_changes_nothing plain started)
                    TypeError Hthrow)).
Defined.

(** X13 at work: no role; a role that does not exist, for a room that
    does not exist either; a room that does not exist. *)
Lemma join_refusals_witness :
  handleWebSocket (Some (uuid 0)) None (Some 13) started
  = (Ret (mkResponse 400 "Missing 'room-id' or 'role' query parameters"),
     started, [])
  ∧ handleWebSocket (Some "nowhere") (Some "admin") (Some 13) started
    = (Ret (mkResponse 400 "Role must be 'client' or 'server'"), started, [])
  ∧ handleWebSocket (Some "nowhere") (Some "client") None started
    = (Ret (mkResponse 404 "Room with ID 'nowhere' not found"), started, []).
Proof.
  assert (Some "admin" ≠ Some "client") as Hclient by discriminate.
  assert (Some "admin" ≠ Some "server") as Hserver by discriminate.
  split_and!.
  - exact (proj1 (join_refusals started (Some (uuid 0)) None (Some 13)) eq_refl).
  - exact (proj1 (proj2 (join_refusals started (Some "nowhere") (Some "admin")
                           (Some 13)))
             eq_refl Hclient Hserver).
  - exact (proj2 (proj2 (join_refusals started (Some "nowhere") (Some "client")
                           None))
             "nowhere" eq_refl eq_refl (or_introl eq_refl) eq_refl).
Defined.

(** X14 at work: a third guest joins the room. *)
Lemma guest_join_registers_witness :
  uuid 0 ≠ EmptyString
  ∧ rooms started !! uuid 0 = Some 0
  ∧ heap started !! 0 = Some room_of_three
  ∧ wired (state_of (step (join (uuid 0) "client" 13) started)) !! 13
    = Some (0, ClientHandlers (uuid 3))
  ∧ uuid_calls (state_of (step (join (uuid 0) "client" 13) started)) = 4
  ∧ step (PlainRequest "GET" "/ws" (Some (uuid 0)) (Some "client")) started
    = (Throw TypeError, started, []).
Proof.
  assert (uuid 0 ≠ EmptyString) as Hne by discriminate.
  assert (rooms started !! uuid 0 = Some 0) as Hroom by reflexivity.
  assert (heap started !! 0 = Some room_of_three) as Hheap by reflexivity.
  destruct (guest_join_registers started (uuid 0) 0 room_of_three 13
              Hne Hroom Hheap)
    as (_ & _ & _ & _ & Hwired & _ & Hcalls & _ & Hplain).
  split_and!; [exact Hne|exact Hroom|exact Hheap|exact Hwired|exact Hcalls|
               exact Hplain].
Defined.

(** X15 at work: the host joins the room that was just created. *)
Lemma host_join_registers_witness :
  let s := fst (run [create_room] initial) in
  uuid 0 ≠ EmptyString
  ∧ rooms s !! uuid 0 = Some 0
  ∧ heap s !! 0 = Some (mkRoom (uuid 0) None [])
  ∧ heap (state_of (step (join (uuid 0) "server" 10) s)) !! 0
    = Some (mkRoom (uuid 0) (Some 10) [])
  ∧ uuid_calls (state_of (step (join (uuid 0) "server" 10) s)) = 1
  ∧ step (PlainRequest "GET" "/ws" (Some (uuid 0)) (Some "server")) s
    = (Throw TypeError, s, []).
Proof.
  intros s.
  assert (uuid 0 ≠ EmptyString) as Hne by discriminate.
  assert (rooms s !! uuid 0 = Some 0) as Hroom by reflexivity.
  assert (heap s !! 0 = Some (mkRoom (uuid 0) None [])) as Hheap by reflexivity.
  destruct (host_join_registers s (uuid 0) 0 (mkRoom (uuid 0) None []) 10
              Hne Hroom Hheap eq_refl)
    as (_ & Hhosted & _ & _ & _ & _ & Hcalls & _ & Hplain).
  split_and!; [exact Hne|exact Hroom|exact Hheap|exact Hhosted|exact Hcalls|
               exact Hplain].
Defined.

(** X16 at work: a guest joins the hosted room and sends a message. *)
Lemma joined_guest_reaches_host_witness :
  let message := JSObject [("foo", JSNumber one)] in
  let joined := state_of (step (join (uuid 0) "client" 11) hosted) in
  uuid 0 ≠ EmptyString
  ∧ rooms hosted !! uuid 0 = Some 0
  ∧ heap hosted !! 0 = Some (mkRoom (uuid 0) (Some 10) [])
  ∧ JSON_parse (stringify message) = Some message
  ∧ step (Message 11 (stringify message)) joined
    = (Ret None, joined,
       [ws_send 10 (JSON_stringify (with_clientID message (uuid 1)))]).
Proof.
  intros message joined.
  assert (uuid 0 ≠ EmptyString) as Hne by discriminate.
  split_and!; [exact Hne|reflexivity..|].
  exact (joined_guest_reaches_host hosted (uuid 0) 0
           (mkRoom (uuid 0) (Some 10) []) 10 11 (stringify message) message
           Hne eq_refl eq_refl eq_refl eq_refl).
Defined.

(** X17 at work: a guest joins the hosted room and the host writes to
    it. *)
Lemma host_reaches_joined_guest_witness :
  let message := JSObject [("foo", JSNumber two);
                           ("clientID", JSString (uuid 1))] in
  let joined := state_of (step (join (uuid 0) "client" 11) hosted) in
  uuid 0 ≠ EmptyString
  ∧ wired hosted !! 10 = Some (0, ServerHandlers)
  ∧ 10 ≠ 11
  ∧ uuid 1 ≠ EmptyString
  ∧ JSON_parse (stringify message) = Some message
  ∧ step (Message 10 (stringify message)) joined
    = (Ret None, joined, [ws_send 11 (JSON_stringify message)]).
Proof.
  intros message joined.
  assert (uuid 0 ≠ EmptyString) as Hne by discriminate.
  assert (10 ≠ 11) as Hsockets by discriminate.
  assert (crypto_randomUUID (uuid_calls hosted) ≠ EmptyString) as HG
    by discriminate.
  split_and!; [exact Hne|reflexivity|exact Hsockets|exact HG|reflexivity|].
  exact (host_reaches_joined_guest hosted (uuid 0) 0
           (mkRoom (uuid 0) (Some 10) []) 10 11 (stringify message) message
           Hne eq_refl eq_refl eq_refl Hsockets HG eq_refl eq_refl).
Defined.

(** X18 at work: the second guest of the room joins. *)
Lemma guest_ids_fresh_witness :
  let evs1 := [create_room; join (uuid 0) "server" 10;
               join (uuid 0) "client" 11] in
  let before := fst (run evs1 initial) in
  NoDup (crypto_randomUUID <$>
           seq 0 (uuid_calls
                    (fst (run (evs1 ++ [join (uuid 0) "client" 12]) initial))))
  ∧ uuid 0 ≠ EmptyString
  ∧ is_Some (rooms before !! uuid 0)
  ∧ rooms before !! uuid 2 = None
  ∧ ∃ r', heap (state_of (step (join (uuid 0) "client" 12) before)) !! 0
          = Some r'
          ∧ JSMap.get (clientConns r') (uuid 1) = Some 11.
Proof.
  intros evs1 before.
  assert (NoDup (crypto_randomUUID <$>
                   seq 0 (uuid_calls
                     (fst (run (evs1 ++ [join (uuid 0) "client" 12]) initial)))))
    as Hfresh.
  { apply (bool_decide_unpack _). vm_compute. exact I. }
  assert (uuid 0 ≠ EmptyString) as Hne by discriminate.
  assert (is_Some (rooms before !! uuid 0)) as Hroom by (by eexists).
  destruct (guest_ids_fresh evs1 [] (uuid 0) 12 Hfresh Hne Hroom)
    as (_ & _ & Hnoroom & Hkept).
  split_and!; [exact Hfresh|exact Hne|exact Hroom|exact Hnoroom|].
  exact (Hkept 0 (mkRoom (uuid 0) (Some 10) [(uuid 1, 11)]) (uuid 1) 11
           eq_refl eq_refl).
Defined.

(** X11 at work: a second host asks to join the room of three. *)
Lemma exceptions_only_at_join_witness :
  rooms started !! uuid 0 = Some 0
  ∧ heap started !! 0 = Some room_of_three
  ∧ outcome_of (step (join (uuid 0) "server" 13) (fst (run session initial)))
    = Throw InvalidStateError
  ∧ ¬ (∃ e, outcome_of (step (Message 13 "not json") (fst (run session initial)))
            = Throw e).
Proof.
  assert (uuid 0 ≠ EmptyString) as Hne by discriminate.
  assert (rooms (fst (run session initial)) !! uuid 0 = Some 0) as Hroom
    by reflexivity.
  assert (heap (fst (run session initial)) !! 0 = Some room_of_three) as Hheap
    by reflexivity.
  split_and!; [exact Hroom|exact Hheap| |].
  - apply (proj2 (exceptions_only_at_join session (join (uuid 0) "server" 13)
                    InvalidStateError)).
    exists (uuid 0), "server", 0, room_of_three.
    split_and!; [exact Hne|exact Hroom|exact Hheap|].
    right. split_and!; [by exists 13|by exists 10|reflexivity].
  - intros [e Hthrow].
    destruct (proj1 (exceptions_only_at_join session (Message 13 "not json") e)
                Hthrow)
      as (roomId & role & this & r & _ & _ & _ & [(_ & Hev & _)|([ws Hev] & _)]);
      discriminate Hev.
Defined.
